(** * Discord_NestJS: the role guard ([src/guards/role.guard.ts])

    A shallow embedding of [RoleGuard.canActivate] and of the JavaScript
    primitives it relies on ([Math.min], [Number], the template literal,
    truthiness), followed by the properties of the guard.  After the guard
    come the comment service (pages of comments, creation, deletion) and the
    functions of the user service that activate, ban and credit a user,
    with their properties.

    Conventions of the model.
    - A JavaScript string is a [string]: a sequence of characters with codes
      0..255.  Characters above U+00FF are outside the model.
    - A JavaScript number is a [jsnum]: NaN, the two infinities, or an exact
      rational.  IEEE-754 rounding, and the overflow of a literal to an
      infinity, are not modelled; the model is exact on the integers a double
      holds exactly, which include every Prisma [Int] (the type of
      [roleLevel]) and every integer role level of a decorator.
    - Asynchronous calls are sequenced in program order: every [await] of
      [canActivate] is a bind of the monad [M].  What other requests do
      between the awaits is the matter of the threads and of [runs]. *)

From Stdlib Require Import ZArith QArith String Ascii List Bool Lia.
From Stdlib Require Import Decimal DecimalString DecimalPos DecimalZ.
From Stdlib Require Import Qround.
From stdpp Require Import gmap strings.

Local Open Scope Z_scope.

(** ** JavaScript numbers *)

Module Js.

Inductive jsnum : Type :=
  | NaN
  | PosInfinity
  | NegInfinity
  | Fin (q : Q).

Definition of_Z (z : Z) : jsnum := Fin (inject_Z z).

Definition Qltb (a b : Q) : bool :=
  Qnum a * Z.pos (Qden b) <? Qnum b * Z.pos (Qden a).

(** The relational operator [x < y] on numbers (IsLessThan); [undefined],
    the result on NaN, is [false] once coerced by the operator. *)
Definition lt (x y : jsnum) : bool :=
  match x, y with
  | NaN, _ | _, NaN => false
  | PosInfinity, _ => false
  | _, PosInfinity => true
  | _, NegInfinity => false
  | NegInfinity, _ => true
  | Fin a, Fin b => Qltb a b
  end.

Definition isNaN (x : jsnum) : bool :=
  match x with NaN => true | _ => false end.

(** [Math.min(...values)]: NaN if any argument is NaN, otherwise the lowest
    argument, starting from +Infinity. *)
Definition Math_min (values : list jsnum) : jsnum :=
  if existsb isNaN values then NaN
  else fold_left (fun lowest n => if lt n lowest then n else lowest)
                 values PosInfinity.

(** *** StringToNumber *)

Definition code (c : ascii) : Z := Z.of_N (N_of_ascii c).

(** StrWhiteSpaceChar, restricted to the characters of the model: TAB, LF,
    VT, FF, CR, SP and NBSP. *)
Definition is_ws (c : ascii) : bool :=
  let n := code c in
  ((9 <=? n) && (n <=? 13)) || (n =? 32) || (n =? 160).

Fixpoint skip_ws (s : string) : string :=
  match s with
  | String c s' => if is_ws c then skip_ws s' else s
  | EmptyString => EmptyString
  end.

Definition all_ws (s : string) : bool :=
  match skip_ws s with EmptyString => true | _ => false end.

(** Value of a hexadecimal digit, upper or lower case. *)
Definition hex_val (c : ascii) : option Z :=
  let n := code c in
  if (48 <=? n) && (n <=? 57) then Some (n - 48)
  else if (97 <=? n) && (n <=? 102) then Some (n - 87)
  else if (65 <=? n) && (n <=? 70) then Some (n - 55)
  else None.

Definition digit_of (radix : Z) (c : ascii) : option Z :=
  match hex_val c with
  | Some v => if v <? radix then Some v else None
  | None => None
  end.

(** Reads the longest run of digits of the radix: the value accumulated on
    [acc], the number of digits read added to [n], and the rest. *)
Fixpoint take_digits (radix : Z) (s : string) (acc : Z) (n : nat)
  : Z * nat * string :=
  match s with
  | String c s' =>
      match digit_of radix c with
      | Some v => take_digits radix s' (acc * radix + v) (S n)
      | None => (acc, n, s)
      end
  | EmptyString => (acc, n, EmptyString)
  end.

(** The mathematical value [m * 10^e]. *)
Definition dec_value (m e : Z) : Q :=
  if 0 <=? e then inject_Z (m * 10 ^ e)
  else Qmake m (Pos.pow 10 (Z.to_pos (- e))).

(** ExponentPart_opt after a mantissa [m] with [frac] fraction digits. *)
Definition parse_exponent (m : Z) (frac : nat) (s : string)
  : option (Q * string) :=
  let plain := Some (dec_value m (- Z.of_nat frac), s) in
  match s with
  | String c s' =>
      if (code c =? 101) || (code c =? 69) then
        let '(neg, s'') :=
          match s' with
          | String d t =>
              if code d =? 45 then (true, t)
              else if code d =? 43 then (false, t) else (false, s')
          | EmptyString => (false, s')
          end in
        let '(ev, ne, rest) := take_digits 10 s'' 0 0%nat in
        match ne with
        | O => None
        | S _ =>
            Some (dec_value m ((if neg then - ev else ev) - Z.of_nat frac),
                  rest)
        end
      else plain
  | EmptyString => plain
  end.

(** StrUnsignedDecimalLiteral other than [Infinity]. *)
Definition parse_unsigned_decimal (s : string) : option (Q * string) :=
  let '(m1, n1, r1) := take_digits 10 s 0 0%nat in
  match r1 with
  | String c r2 =>
      if code c =? 46 then
        let '(m, n2, r3) := take_digits 10 r2 m1 0%nat in
        match (n1 + n2)%nat with
        | O => None
        | S _ => parse_exponent m n2 r3
        end
      else match n1 with O => None | S _ => parse_exponent m1 0 r1 end
  | EmptyString =>
      match n1 with O => None | S _ => parse_exponent m1 0 r1 end
  end.

Definition strip_prefix (p s : string) : option string :=
  if String.prefix p s
  then Some (String.substring (String.length p)
                              (String.length s - String.length p) s)
  else None.

Definition parse_unsigned (s : string) : option (jsnum * string) :=
  match strip_prefix "Infinity" s with
  | Some rest => Some (PosInfinity, rest)
  | None =>
      match parse_unsigned_decimal s with
      | Some (q, rest) => Some (Fin q, rest)
      | None => None
      end
  end.

Definition negate (x : jsnum) : jsnum :=
  match x with
  | NaN => NaN
  | PosInfinity => NegInfinity
  | NegInfinity => PosInfinity
  | Fin q => Fin (Qopp q)
  end.

(** StrDecimalLiteral: an optional sign and an unsigned literal. *)
Definition parse_decimal (s : string) : option (jsnum * string) :=
  match s with
  | String c s' =>
      if code c =? 45 then
        match parse_unsigned s' with
        | Some (v, rest) => Some (negate v, rest)
        | None => None
        end
      else if code c =? 43 then parse_unsigned s'
      else parse_unsigned s
  | EmptyString => None
  end.

(** NonDecimalIntegerLiteral: [0x], [0o] or [0b] (either case) and at least
    one digit of that radix.  [None] when the text has no such prefix. *)
Definition radix_of_prefix (s : string) : option (Z * string) :=
  match s with
  | String c0 (String c1 s') =>
      if code c0 =? 48 then
        if (code c1 =? 120) || (code c1 =? 88) then Some (16, s')
        else if (code c1 =? 111) || (code c1 =? 79) then Some (8, s')
        else if (code c1 =? 98) || (code c1 =? 66) then Some (2, s')
        else None
      else None
  | _ => None
  end.

Definition parse_numeric (s : string) : option (jsnum * string) :=
  match radix_of_prefix s with
  | Some (radix, s') =>
      let '(v, n, rest) := take_digits radix s' 0 0%nat in
      match n with O => None | S _ => Some (of_Z v, rest) end
  | None => parse_decimal s
  end.

(** [Number(s)] on a string: white space is trimmed on both sides; the empty
    text is 0; text that is not a StringNumericLiteral is NaN.  A numeric
    text is given its mathematical value: [Number] rounds that value to the
    nearest double, to an infinity when it is too large, to zero when it is
    too small, and agrees with the model on the values a double holds
    exactly.  The properties that compare a parsed value are stated for
    those. *)
Definition StringToNumber (s : string) : jsnum :=
  match skip_ws s with
  | EmptyString => of_Z 0
  | t =>
      match parse_numeric t with
      | Some (v, rest) => if all_ws rest then v else NaN
      | None => NaN
      end
  end.

(** [Number::toString] on an integer: decimal digits, a minus sign when
    negative.  (Exact below 10^21, where JavaScript switches to exponent
    notation.) *)
Definition NumberToString (z : Z) : string :=
  NilEmpty.string_of_int (Z.to_int z).

(** The operator [x / y].  The model has no negative zero: a zero divisor
    is +0. *)
Definition divide (x y : jsnum) : jsnum :=
  match x, y with
  | NaN, _ | _, NaN => NaN
  | Fin a, Fin b =>
      if Qnum b =? 0 then
        if Qnum a =? 0 then NaN
        else if 0 <? Qnum a then PosInfinity else NegInfinity
      else Fin (Qdiv a b)
  | Fin _, _ => of_Z 0
  | PosInfinity, Fin b => if Qnum b <? 0 then NegInfinity else PosInfinity
  | NegInfinity, Fin b => if Qnum b <? 0 then PosInfinity else NegInfinity
  | _, _ => NaN
  end.

(** [Math.ceil(x)]. *)
Definition Math_ceil (x : jsnum) : jsnum :=
  match x with
  | Fin q => of_Z (Qceiling q)
  | _ => x
  end.

End Js.

(** ** Values, collaborators and the world the guard runs in *)

(** The values [cachedRole : string | number] takes, and [null], what the
    cache client answers on an absent key. *)
Inductive JsVal : Type :=
  | JNull
  | JString (s : string)
  | JNumber (n : Js.jsnum).

(** [!v] is true on these values (ToBoolean is false): [null], the empty
    string, and the numbers 0 and NaN. *)
Definition falsy (v : JsVal) : bool :=
  match v with
  | JNull => true
  | JString EmptyString => true
  | JString (String _ _) => false
  | JNumber Js.NaN => true
  | JNumber (Js.Fin q) => Qnum q =? 0
  | JNumber _ => false
  end.

(** [Number(v)]. *)
Definition Number (v : JsVal) : Js.jsnum :=
  match v with
  | JNull => Js.of_Z 0
  | JString s => Js.StringToNumber s
  | JNumber n => n
  end.

Module Prisma.

(** A row of the [authCode] table, with the columns the guard uses. *)
Record AuthCode : Type := { id : string; authCode : string; roleLevel : Z }.

(** Modelled from the spec: [PrismaService] (src/prisma/prisma.service) is
    not among the source files.  "findOne(identity, sessionCode) ->
    { roleLevel } | absent": the record matching exactly both fields. *)
Definition findUnique (where_id where_authCode : string)
    (table : list AuthCode) : option AuthCode :=
  find (fun a => String.eqb (id a) where_id
                 && String.eqb (authCode a) where_authCode) table.

End Prisma.

Inductive Exception : Type :=
  | UnauthorizedException (message : string).

(** The two failures of the guard, under the names of the specification. *)
Definition AuthenticationError : Exception :=
  UnauthorizedException "Invalid authentication".
Definition AuthorizationError : Exception :=
  UnauthorizedException "Insufficient permissions".

(** What a call on a collaborator leaves behind, in program order. *)
Inductive Event : Type :=
  | RedisGet (key : string)
  | RedisSet (key value : string)
  | PrismaFindUnique (where_id where_authCode : string)
  | ConsoleLog (v : JsVal).

Record World : Type := {
  redis : gmap string string;
  authCodeTable : list Prisma.AuthCode;
  events : list Event
}.

Inductive Result (A : Type) : Type :=
  | Return (a : A)
  | Throw (e : Exception).
Arguments Return {A} a.
Arguments Throw {A} e.

(** State and exceptions: an [async] function of the source. *)
Definition M (A : Type) : Type := World -> Result A * World.

Definition ret {A} (a : A) : M A := fun w => (Return a, w).

Definition throw {A} (e : Exception) : M A := fun w => (Throw e, w).

Definition bind {A B} (m : M A) (k : A -> M B) : M B :=
  fun w =>
    match m w with
    | (Return a, w') => k a w'
    | (Throw e, w') => (Throw e, w')
    end.

Declare Scope guard_scope.
Delimit Scope guard_scope with guard.
Notation "x <- m ;; k" := (bind m (fun x => k))
  (at level 100, m at next level, right associativity) : guard_scope.
Notation "m ;;; k" := (bind m (fun _ => k))
  (at level 100, right associativity) : guard_scope.

Definition emit (e : Event) : M unit :=
  fun w => (Return tt, {| redis := redis w;
                          authCodeTable := authCodeTable w;
                          events := events w ++ [e] |}).

(** [redisService.client.get(key)]: the string stored under the key, or
    [null]. *)
Definition redis_client_get (key : string) : M JsVal :=
  fun w =>
    (Return (match redis w !! key with
             | Some s => JString s
             | None => JNull
             end),
     {| redis := redis w;
        authCodeTable := authCodeTable w;
        events := events w ++ [RedisGet key] |}).

(** Modelled from the spec: [RedisService] (src/cache/redis.service) is not
    among the source files.  "set(key, value) -> ok", without expiration;
    the number written is read back as a string, its decimal text. *)
Definition redisService_set (key : string) (value : Z) : M unit :=
  fun w =>
    (Return tt,
     {| redis := <[key := Js.NumberToString value]> (redis w);
        authCodeTable := authCodeTable w;
        events := events w ++ [RedisSet key (Js.NumberToString value)] |}).

(** [prisma.authCode.findUnique({ where: { id, authCode } })]. *)
Definition prisma_authCode_findUnique (where_id where_authCode : string)
  : M (option Prisma.AuthCode) :=
  fun w =>
    (Return (Prisma.findUnique where_id where_authCode (authCodeTable w)),
     {| redis := redis w;
        authCodeTable := authCodeTable w;
        events := events w ++ [PrismaFindUnique where_id where_authCode] |}).

Definition console_log (v : JsVal) : M unit := emit (ConsoleLog v).

(** ** The guard *)

(** [request.user] of [IRequestWithDecodedAuthToken]: the decoded token.
    Identifiers are strings, as the ids of the services of this repository
    are. *)
Record User : Type := { user_id : string; auth_code : string }.

(** The execution context: the [Roles] metadata of the handler, if the
    handler declares any, and the request. *)
Record ExecutionContext : Type := {
  handler_roles : option (list Z);
  request_user : User
}.

(** [this.reflector.get<number[]>(Roles, context.getHandler())]. *)
Definition reflector_get (context : ExecutionContext) : option (list Z) :=
  handler_roles context.

(** The template literal [`role_${id}_${authCode}`]. *)
Definition cacheKey (id authCode : string) : string :=
  "role_" +:+ id +:+ "_" +:+ authCode.

Local Open Scope guard_scope.

Definition canActivate (context : ExecutionContext) : M bool :=
  match reflector_get context with
  | None => ret true
  | Some rolesLevel =>
      let minRoleLevel := Js.Math_min (map Js.of_Z rolesLevel) in
      let id := user_id (request_user context) in
      let authCode := auth_code (request_user context) in
      let cacheKey := cacheKey id authCode in
      cachedRole <- redis_client_get cacheKey ;;
      console_log cachedRole ;;;
      cachedRole <-
        (if falsy cachedRole then
           auth <- prisma_authCode_findUnique id authCode ;;
           match auth with
           | None => throw AuthenticationError
           | Some auth =>
               redisService_set cacheKey (Prisma.roleLevel auth) ;;;
               ret (JNumber (Js.of_Z (Prisma.roleLevel auth)))
           end
         else ret cachedRole) ;;
      if Js.lt (Number cachedRole) minRoleLevel
      then throw AuthorizationError
      else ret true
  end.

Local Close Scope guard_scope.

(** ** Notions the properties are stated with *)

(** The cache key of the request of a context. *)
Definition requestKey (context : ExecutionContext) : string :=
  cacheKey (user_id (request_user context)) (auth_code (request_user context)).

(** What the cache answers for a key. *)
Definition cached (w : World) (key : string) : JsVal :=
  match redis w !! key with
  | Some s => JString s
  | None => JNull
  end.

(** The lookup of the request misses: [!cachedRole] holds. *)
Definition cacheMiss (context : ExecutionContext) (w : World) : bool :=
  falsy (cached w (requestKey context)).

(** The authoritative record of the request, matching exactly the pair
    (identity, sessionCode). *)
Definition authoritative (context : ExecutionContext) (w : World)
  : option Prisma.AuthCode :=
  Prisma.findUnique (user_id (request_user context))
                    (auth_code (request_user context)) (authCodeTable w).

(** The effective role level, in the words of the specification: the cached
    value on a hit, the level of the authoritative record on a miss, none
    when the lookup misses and there is no record. *)
Definition effectiveRoleLevel (context : ExecutionContext) (w : World)
  : option Js.jsnum :=
  if cacheMiss context w
  then option_map (fun a => Js.of_Z (Prisma.roleLevel a))
                  (authoritative context w)
  else Some (Number (cached w (requestKey context))).

(** [m] is the numeric minimum of the collection. *)
Definition is_minimum (m : Z) (l : list Z) : Prop :=
  In m l /\ forall x, In x l -> m <= x.

(** The world with more events recorded, with another cache, with another
    table. *)
Definition record (es : list Event) (w : World) : World :=
  {| redis := redis w; authCodeTable := authCodeTable w;
     events := events w ++ es |}.

Definition with_redis (r : gmap string string) (w : World) : World :=
  {| redis := r; authCodeTable := authCodeTable w; events := events w |}.

Definition with_table (t : list Prisma.AuthCode) (w : World) : World :=
  {| redis := redis w; authCodeTable := t; events := events w |}.

(** The lookup treated as a miss: the world without the entry of the key. *)
Definition evict (key : string) (w : World) : World :=
  with_redis (delete key (redis w)) w.

Definition with_roles (l : option (list Z)) (context : ExecutionContext)
  : ExecutionContext :=
  {| handler_roles := l; request_user := request_user context |}.

(** Calls on the authoritative store and writes to the cache among events:
    the call counts an injected test double would assert on. *)
Definition is_store_call (e : Event) : bool :=
  match e with PrismaFindUnique _ _ => true | _ => false end.

Definition is_cache_write (e : Event) : bool :=
  match e with RedisSet _ _ => true | _ => false end.

Definition store_calls (es : list Event) : nat :=
  length (List.filter is_store_call es).

Definition cache_writes (es : list Event) : nat :=
  length (List.filter is_cache_write es).

(** The comparison the guard ends with, on an effective level. *)
Definition verdict (level minRoleLevel : Js.jsnum) : Result bool :=
  if Js.lt level minRoleLevel then Throw AuthorizationError else Return true.

(** The separator of the cache key does not occur in the text. *)
Fixpoint no_separator (s : string) : bool :=
  match s with
  | String c s' => negb (Ascii.eqb c "_") && no_separator s'
  | EmptyString => true
  end.

(** A decimal digit. *)
Definition is_digit (c : ascii) : bool :=
  (48 <=? Js.code c) && (Js.code c <=? 57).

(** A computation that leaves the authoritative store as it found it. *)
Definition frames_table {A} (m : M A) : Prop :=
  forall w, authCodeTable (snd (m w)) = authCodeTable w.

(** ** Levels on which the model and JavaScript agree *)

(** An integer a JavaScript number holds exactly: a double has 53 bits of
    mantissa.  Every Prisma [Int] and every role level of a decorator is
    one. *)
Definition safe_integer (z : Z) : Prop := Z.abs z <= 2 ^ 53.

(** The number is the integer [r]. *)
Definition holds_integer (x : Js.jsnum) (r : Z) : Prop :=
  match x with
  | Js.Fin q => Qeq q (inject_Z r)
  | _ => False
  end.

(** A value [Number] yields exactly as the model computes it: NaN, an
    infinity written as such, or an integer a double holds exactly.  A text
    whose mathematical value a double does not hold ([0.1], an integer of
    twenty digits, [1e400]) is read by [Number] as the nearest double, or as
    an infinity, and is not such a value. *)
Definition exact_level (x : Js.jsnum) : Prop :=
  match x with
  | Js.Fin q => exists r : Z, Qeq q (inject_Z r) /\ safe_integer r
  | _ => True
  end.

(** ** The guard between its awaits *)









(** ** Scenarios *)

(** One authenticated user, a handler gated by role levels or not gated at
    all, the user's row with a given role level, and worlds with a cold
    cache or with one cached text under the user's key. *)
Definition alice : User := {| user_id := "u1"; auth_code := "c1" |}.

Definition gated (levels : list Z) : ExecutionContext :=
  {| handler_roles := Some levels; request_user := alice |}.

Definition ungated : ExecutionContext :=
  {| handler_roles := None; request_user := alice |}.

Definition alice_row (level : Z) : Prisma.AuthCode :=
  {| Prisma.id := "u1"; Prisma.authCode := "c1"; Prisma.roleLevel := level |}.

Definition cold (table : list Prisma.AuthCode) : World :=
  {| redis := ∅; authCodeTable := table; events := [] |}.

Definition warm (key text : string) (table : list Prisma.AuthCode) : World :=
  {| redis := {[ key := text ]}; authCodeTable := table; events := [] |}.

(** ** The services: responses and errors *)

(** [IResponseType<T>]; [date] is the reading of the clock when the response
    is built ([new Date()]), in milliseconds. *)
Record Response (A : Type) : Type := {
  message : string;
  data : A;
  statusCode : Z;
  date : Z
}.
Arguments message {A} r.
Arguments data {A} r.
Arguments statusCode {A} r.
Arguments date {A} r.

(** What a [try] block of a service throws: the HTTP exceptions of the
    source, the [TypeError] of the language, and the errors of the Prisma
    client (an argument it rejects, a record an operation requires and does
    not find). *)
Inductive ServiceError : Type :=
  | BadRequestException (message : string)
  | NotFoundException (message : string)
  | ForbiddenException (message : string)
  | TypeError
  | PrismaInvalidArgument (argument : string)
  | PrismaRecordNotFound (model : string).

(** How a call of a service ends: the function returns a response, or its
    [try] block throws and the [catch] block calls [handleDefaultError] on
    the error. *)
Inductive Outcome (A : Type) : Type :=
  | Responded (response : Response A)
  | Handled (error : ServiceError).
Arguments Responded {A} response.
Arguments Handled {A} error.

(** ** The comment service
    ([src/resources/post-comment/post-comment.service.ts]) *)

Module PostCommentService.

(** Rows of the [post] and [postComment] tables, with the columns the
    service reads and writes; the [select] projections of the queries are
    not modelled, a row stands for what is selected of it. *)
Module Post.
Record t : Type := { id : string; commentCount : Z }.
End Post.

Module PostComment.
Record t : Type := {
  id : string;
  content : string;
  postId : string;
  authorId : string;
  replyToId : option string;
  level : Z;
  repliesCount : Z
}.
End PostComment.

(** The tables, in the order the database returns their rows. *)
Record Database : Type := {
  post : list Post.t;
  postComment : list PostComment.t
}.

(** [prisma.post.findUnique({ where: { id } })] and
    [prisma.postComment.findUnique({ where: { id } })]. *)
Definition post_findUnique (where_id : string) (db : Database)
  : option Post.t :=
  find (fun p => String.eqb (Post.id p) where_id) (post db).

Definition postComment_findUnique (where_id : string) (db : Database)
  : option PostComment.t :=
  find (fun c => String.eqb (PostComment.id c) where_id) (postComment db).

(** [Prisma.PostCommentWhereInput], as the service builds it: the post, and
    the parent when the filter has one. *)
Record PostCommentWhereInput : Type := {
  where_postId : string;
  where_replyToId : option string
}.

Definition satisfies (where_ : PostCommentWhereInput) (c : PostComment.t)
  : bool :=
  String.eqb (PostComment.postId c) (where_postId where_)
  && match where_replyToId where_ with
     | None => true
     | Some parent =>
         match PostComment.replyToId c with
         | Some r => String.eqb r parent
         | None => false
         end
     end.

(** [prisma.postComment.findMany({ where, skip, take })]: the rows that
    satisfy the filter, without the first [skip] of them, [take] of them at
    most.  The client rejects a negative [skip]; a negative [take] counts
    from the end of the list. *)
Definition postComment_findMany (where_ : PostCommentWhereInput)
    (skip take : Z) (db : Database) : ServiceError + list PostComment.t :=
  if skip <? 0 then inl (PrismaInvalidArgument "skip")
  else
    let rows := List.filter (satisfies where_) (postComment db) in
    if 0 <=? take
    then inr (firstn (Z.to_nat take) (skipn (Z.to_nat skip) rows))
    else inr (rev (firstn (Z.to_nat (- take))
                          (skipn (Z.to_nat skip) (rev rows)))).

(** [prisma.postComment.count({ where })]. *)
Definition postComment_count (where_ : PostCommentWhereInput) (db : Database)
  : Z :=
  Z.of_nat (length (List.filter (satisfies where_) (postComment db))).

(** An optional text of the request: absent ([undefined]), [null], or a
    string. *)
Inductive OptionalText : Type :=
  | undefined
  | null
  | text (s : string).

(** ToBoolean on an optional text. *)
Definition truthy (v : OptionalText) : bool :=
  match v with
  | text (String _ _) => true
  | _ => false
  end.

(** The data of [IPaginationResponseType<T>]. *)
Record Pagination : Type := {
  currentPage : Z;
  pageSize : Z;
  totalPage : Js.jsnum;
  totalCount : Z;
  hasNextPage : bool;
  hasPreviousPage : bool;
  items : list PostComment.t
}.

(** The operations the service puts in a write transaction. *)
Inductive Atomic : Type :=
  | increment (n : Z)
  | decrement (n : Z).

Record PostCommentCreateInput : Type := {
  create_content : string;
  create_replyToId : option string;
  create_postId : string;
  create_authorId : string;
  create_level : Z
}.

Inductive Operation : Type :=
  | post_update (where_id : string) (commentCount : Atomic)
  | postComment_create (data : PostCommentCreateInput)
  | postComment_update (where_id : string) (repliesCount : Atomic)
  | postComment_delete (where_id : string).

(** What the client answers for one operation of a transaction. *)
Inductive Answer : Type :=
  | post_row (p : Post.t)
  | comment_row (c : PostComment.t).

(** How a call that writes ends before the database answers.
    - [Caught e]: the [try] block threw [e] before any write, and the
      [catch] block called [handleDefaultError(e)].
    - [Transact ops respond]: the reads succeeded and the function awaits
      [prisma.$transaction(ops)]; when the client answers [answers], one per
      operation, the function returns [respond answers]; when the client
      throws, the error goes to [handleDefaultError]. *)
Inductive Write (A : Type) : Type :=
  | Caught (error : ServiceError)
  | Transact (operations : list Operation)
             (respond : list Answer -> Response A).
Arguments Caught {A} error.
Arguments Transact {A} operations respond.

(** [getPostComments({ postId, page = 1, limit = 10, replyTo })] at the
    clock reading [now]: [page] and [limit] are integers, [None] when the
    caller leaves them [undefined]. *)
Definition getPostComments (db : Database) (now : Z) (postId : string)
    (page limit : option Z) (replyTo : OptionalText) : Outcome Pagination :=
  let page := match page with Some p => p | None => 1 end in
  let limit := match limit with Some l => l | None => 10 end in
  if String.eqb postId "" then
    Handled (BadRequestException "Post id is required")
  else
    match post_findUnique postId db with
    | None => Handled (NotFoundException "Post not found")
    | Some postExist =>
        let whereQuery :=
          {| where_postId := postId;
             where_replyToId :=
               match replyTo with
               | text (String c s) => Some (String c s)
               | _ => None
               end |} in
        match postComment_findMany whereQuery ((page - 1) * limit) limit db
        with
        | inl error => Handled error
        | inr comments =>
            let totalCount := postComment_count whereQuery db in
            let totalPage :=
              Js.Math_ceil (Js.divide (Js.of_Z totalCount) (Js.of_Z limit)) in
            let hasNextPage := page * limit <? totalCount in
            let hasPreviousPage := negb (totalCount =? 0) && (1 <? page) in
            Responded
              {| message := "Get comments successfully";
                 data := {| currentPage := page;
                            pageSize := limit;
                            totalPage := totalPage;
                            totalCount := totalCount;
                            hasNextPage := hasNextPage;
                            hasPreviousPage := hasPreviousPage;
                            items := comments |};
                 statusCode := 200;
                 date := now |}
        end
    end.

(** [CreatePostCommentDto]. *)
Record CreatePostCommentDto : Type := {
  dto_content : string;
  dto_replyToId : OptionalText
}.

(** [replyToId || null], as a column value. *)
Definition or_null (v : OptionalText) : option string :=
  match v with
  | text (String c s) => Some (String c s)
  | _ => None
  end.

(** [createPostComment({ authorId, postId, data })].  The array of the
    transaction ends with the spread [...(replyToId && [update])]: a truthy
    [replyToId] spreads the one update, the empty string spreads no element,
    and [undefined] or [null], which are not iterable, make the spread throw
    a [TypeError] before the transaction is sent. *)
Definition createPostComment (db : Database) (now : Z) (authorId : string)
    (postId : string) (data_ : CreatePostCommentDto)
  : Write (option Answer) :=
  if String.eqb postId "" then
    Caught (BadRequestException "Post id is required")
  else
    match post_findUnique postId db with
    | None => Caught (NotFoundException "Post not found")
    | Some postExist =>
        let content := dto_content data_ in
        let replyToId := dto_replyToId data_ in
        let respond (answers : list Answer) :=
          {| message := "Comment created successfully";
             data := nth_error answers 1;
             statusCode := 201;
             date := now |} in
        let create (level : Z) :=
          postComment_create
            {| create_content := content;
               create_replyToId := or_null replyToId;
               create_postId := postId;
               create_authorId := authorId;
               create_level := level |} in
        match replyToId with
        | text (String c s) =>
            match postComment_findUnique (String c s) db with
            | None => Caught (NotFoundException "Parent comment not found")
            | Some parentComment =>
                Transact
                  [post_update postId (increment 1);
                   create (PostComment.level parentComment + 1);
                   postComment_update (String c s) (increment 1)]
                  respond
            end
        | text EmptyString =>
            Transact [post_update postId (increment 1); create 0] respond
        | undefined | null => Caught TypeError
        end
    end.

(** [handleDeletePostComment({ commentId, authorId })]; [authorId] is
    [undefined] when the caller leaves it out. *)
Definition handleDeletePostComment (db : Database) (now : Z)
    (commentId : string) (authorId : OptionalText)
  : Write (option Answer) :=
  if String.eqb commentId "" then
    Caught (BadRequestException "Comment id is required")
  else
    match postComment_findUnique commentId db with
    | None => Caught (NotFoundException "Comment not found")
    | Some commentExist =>
        if truthy authorId
           && negb match authorId with
                   | text a => String.eqb (PostComment.authorId commentExist) a
                   | _ => false
                   end
        then Caught (ForbiddenException "This comment is not yours")
        else
          Transact
            ([post_update (PostComment.postId commentExist) (decrement 1)]
             ++ match PostComment.replyToId commentExist with
                | Some (String c s) =>
                    [postComment_update (String c s) (decrement 1)]
                | _ => []
                end
             ++ [postComment_delete commentId])
            (fun answers =>
               {| message := "Comment deleted successfully";
                  data := nth_error answers 2;
                  statusCode := 200;
                  date := now |})
    end.

(** [deletePostComment({ commentId, authorId })]. *)
Definition deletePostComment (db : Database) (now : Z)
    (commentId authorId : string) : Write (option Answer) :=
  handleDeletePostComment db now commentId (text authorId).

(** [deletePostCommentByAdmin({ commentId })]. *)
Definition deletePostCommentByAdmin (db : Database) (now : Z)
    (commentId : string) : Write (option Answer) :=
  handleDeletePostComment db now commentId undefined.

(** The comments a query is about: those of the post, or the direct replies
    to one comment of the post. *)
Definition selected (db : Database) (postId : string) (replyTo : OptionalText)
  : list PostComment.t :=
  List.filter
    (satisfies {| where_postId := postId; where_replyToId := or_null replyTo |})
    (postComment db).

(** The items of a page, empty when the call does not respond. *)
Definition pageItems (db : Database) (now : Z) (postId : string)
    (limit : option Z) (replyTo : OptionalText) (page : Z)
  : list PostComment.t :=
  match getPostComments db now postId (Some page) limit replyTo with
  | Responded r => items (data r)
  | _ => []
  end.

End PostCommentService.

(** The number of the last page that has items, for a positive limit. *)
Definition lastPage (db : PostCommentService.Database) (postId : string)
    (limit : Z) (replyTo : PostCommentService.OptionalText) : Z :=
  (Z.of_nat (length (PostCommentService.selected db postId replyTo))
   + limit - 1) / limit.

(** A post with five comments, two of them replies to the first, and a
    second post with one comment. *)
Definition a_comment (id postId authorId : string) (replyToId : option string)
    (level repliesCount : Z) : PostCommentService.PostComment.t :=
  {| PostCommentService.PostComment.id := id;
     PostCommentService.PostComment.content := "...";
     PostCommentService.PostComment.postId := postId;
     PostCommentService.PostComment.authorId := authorId;
     PostCommentService.PostComment.replyToId := replyToId;
     PostCommentService.PostComment.level := level;
     PostCommentService.PostComment.repliesCount := repliesCount |}.

Definition forum : PostCommentService.Database :=
  {| PostCommentService.post :=
       [ {| PostCommentService.Post.id := "p1";
            PostCommentService.Post.commentCount := 5 |};
         {| PostCommentService.Post.id := "p2";
            PostCommentService.Post.commentCount := 1 |} ];
     PostCommentService.postComment :=
       [ a_comment "c1" "p1" "ann" None 0 2;
         a_comment "c2" "p1" "bob" (Some "c1") 1 0;
         a_comment "c3" "p2" "bob" None 0 0;
         a_comment "c4" "p1" "ann" (Some "c1") 1 0;
         a_comment "c5" "p1" "cid" None 0 0;
         a_comment "c6" "p1" "bob" None 0 0 ] |}.


(** ** The user service (the source file of [UserService]) *)

Module UserService.

(** Rows of the [user] and [activeCode] tables, with the columns the
    modelled functions read and write; ids are primary keys.  Time stamps
    are in milliseconds. *)
Module User.
Record t : Type := {
  id : string;
  username : string;
  isActive : bool;
  isBanned : bool;
  credits : Z
}.
End User.

Module ActiveCode.
Record t : Type := {
  id : string;
  userId : string;
  code : string;
  expiresAt : Z
}.
End ActiveCode.

Record Database : Type := {
  user : list User.t;
  activeCode : list ActiveCode.t
}.

(** The first row that satisfies a condition, replaced; [None] when no row
    does.  With it the row as it is after the change.  (Where the database
    puts a row it has changed is not specified; the properties look rows up
    by their ids.) *)
Fixpoint update_first {A} (p : A -> bool) (f : A -> A) (rows : list A)
  : option (A * list A) :=
  match rows with
  | [] => None
  | row :: rest =>
      if p row then Some (f row, f row :: rest)
      else match update_first p f rest with
           | Some (changed, rest') => Some (changed, row :: rest')
           | None => None
           end
  end.

(** The first row that satisfies a condition, removed. *)
Fixpoint delete_first {A} (p : A -> bool) (rows : list A)
  : option (A * list A) :=
  match rows with
  | [] => None
  | row :: rest =>
      if p row then Some (row, rest)
      else match delete_first p rest with
           | Some (deleted, rest') => Some (deleted, row :: rest')
           | None => None
           end
  end.

Definition has_id (where_id : string) (u : User.t) : bool :=
  String.eqb (User.id u) where_id.

(** [prisma.user.findUnique({ where: { id } })]. *)
Definition user_findUnique (where_id : string) (db : Database)
  : option User.t :=
  find (has_id where_id) (user db).

(** [prisma.user.update({ where: { id }, data })]: the client throws when
    the record to update does not exist; otherwise it answers the record as
    updated ([Some], for the callers that test the answer against [null]). *)
Definition user_update (where_id : string) (change : User.t -> User.t)
    (db : Database) : ServiceError + (option User.t * Database) :=
  match update_first (has_id where_id) change (user db) with
  | Some (updated, users) =>
      inr (Some updated, {| user := users; activeCode := activeCode db |})
  | None => inl (PrismaRecordNotFound "User")
  end.

(** [prisma.activeCode.findFirst({ where: { userId, code } })]. *)
Definition activeCode_findFirst (where_userId where_code : string)
    (db : Database) : option ActiveCode.t :=
  find (fun a => String.eqb (ActiveCode.userId a) where_userId
                 && String.eqb (ActiveCode.code a) where_code)
       (activeCode db).

(** [prisma.activeCode.delete({ where: { id } })]. *)
Definition activeCode_delete (where_id : string) (db : Database)
  : ServiceError + (ActiveCode.t * Database) :=
  match delete_first (fun a => String.eqb (ActiveCode.id a) where_id)
                     (activeCode db) with
  | Some (deleted, codes) =>
      inr (deleted, {| user := user db; activeCode := codes |})
  | None => inl (PrismaRecordNotFound "ActiveCode")
  end.

Definition set_isActive (b : bool) (u : User.t) : User.t :=
  {| User.id := User.id u; User.username := User.username u;
     User.isActive := b; User.isBanned := User.isBanned u;
     User.credits := User.credits u |}.

Definition set_isBanned (b : bool) (u : User.t) : User.t :=
  {| User.id := User.id u; User.username := User.username u;
     User.isActive := User.isActive u; User.isBanned := b;
     User.credits := User.credits u |}.

Definition set_credits (c : Z) (u : User.t) : User.t :=
  {| User.id := User.id u; User.username := User.username u;
     User.isActive := User.isActive u; User.isBanned := User.isBanned u;
     User.credits := c |}.

(** [isPast(date)] of date-fns at the clock reading [now]: the date is
    strictly before now. *)
Definition isPast (date now : Z) : bool := date <? now.

(** [userActiveByCode(userId, { verifyCode })]; [checkedAt] is the reading
    of the clock when the expiry is tested, [respondedAt] when the response
    is built. *)
Definition userActiveByCode (db : Database) (checkedAt respondedAt : Z)
    (userId verifyCode : string) : Outcome (option User.t) * Database :=
  if String.eqb userId "" then
    (Handled (BadRequestException "User ID is required"), db)
  else
    match user_findUnique userId db with
    | None => (Handled (NotFoundException "User not found"), db)
    | Some user_ =>
        if User.isActive user_ then
          (Handled (ForbiddenException "User is already active"), db)
        else
          match activeCode_findFirst (User.id user_) verifyCode db with
          | None =>
              (Handled (ForbiddenException "Invalid verification code"), db)
          | Some checkCode =>
              if isPast (ActiveCode.expiresAt checkCode) checkedAt then
                (Handled (ForbiddenException "Verification code expired"), db)
              else
                match activeCode_delete (ActiveCode.id checkCode) db with
                | inl error => (Handled error, db)
                | inr (_, db1) =>
                    match user_update (User.id user_) (set_isActive true) db1
                    with
                    | inl error => (Handled error, db1)
                    | inr (updatedUser, db2) =>
                        (Responded
                           {| message := "User activated successfully";
                              data := updatedUser;
                              statusCode := 200;
                              date := respondedAt |},
                         db2)
                    end
                end
          end
    end.

(** [banUser(userId, { isBanned })]. *)
Definition banUser (db : Database) (now : Z) (userId : string)
    (isBanned : bool) : Outcome unit * Database :=
  if String.eqb userId "" then
    (Handled (BadRequestException "User ID is required"), db)
  else
    match user_update userId (set_isBanned isBanned) db with
    | inl error => (Handled error, db)
    | inr (_, db1) =>
        let action := if isBanned then "Ban" else "Unban" in
        (Responded {| message := action +:+ " user successfully";
                      data := tt;
                      statusCode := 200;
                      date := now |},
         db1)
    end.

(** The selection [{ id, username, credits }] of a row. *)
Record CreditsView : Type := {
  view_id : string;
  view_username : string;
  view_credits : Z
}.

Definition credits_view (u : User.t) : CreditsView :=
  {| view_id := User.id u; view_username := User.username u;
     view_credits := User.credits u |}.

(** [updateUserCredits(userId, { credits })]: the credits are set. *)
Definition updateUserCredits (db : Database) (now : Z) (userId : string)
    (credits : Z) : Outcome CreditsView * Database :=
  match user_update userId (set_credits credits) db with
  | inl error => (Handled error, db)
  | inr (None, db1) => (Handled (NotFoundException "User not found"), db1)
  | inr (Some updatedUser, db1) =>
      (Responded {| message := "Update user credits successfully";
                    data := credits_view updatedUser;
                    statusCode := 200;
                    date := now |},
       db1)
  end.

(** [addUserCredits(userId, { credits })]: the credits are incremented. *)
Definition addUserCredits (db : Database) (now : Z) (userId : string)
    (credits : Z) : Outcome CreditsView * Database :=
  match user_update userId
          (fun u => set_credits (User.credits u + credits) u) db with
  | inl error => (Handled error, db)
  | inr (None, db1) => (Handled (NotFoundException "User not found"), db1)
  | inr (Some updatedUser, db1) =>
      (Responded {| message := "Add user credits successfully";
                    data := credits_view updatedUser;
                    statusCode := 200;
                    date := now |},
       db1)
  end.

End UserService.

(** Two users, the second with two activation codes. *)
Definition a_user (id : string) (isActive : bool) (credits : Z)
  : UserService.User.t :=
  {| UserService.User.id := id; UserService.User.username := id +:+ "_name";
     UserService.User.isActive := isActive;
     UserService.User.isBanned := false;
     UserService.User.credits := credits |}.

Definition a_code (id userId code : string) (expiresAt : Z)
  : UserService.ActiveCode.t :=
  {| UserService.ActiveCode.id := id; UserService.ActiveCode.userId := userId;
     UserService.ActiveCode.code := code;
     UserService.ActiveCode.expiresAt := expiresAt |}.

Definition members : UserService.Database :=
  {| UserService.user := [a_user "ann" true 10; a_user "bob" false 0];
     UserService.activeCode :=
       [a_code "k1" "bob" "111111" 1000; a_code "k2" "bob" "222222" 5000] |}.


(** ** Facts on the JavaScript primitives *)

Module JsFacts.
Import Js.

Lemma lt_of_Z (a b : Z) : lt (of_Z a) (of_Z b) = (a <? b).
Proof.
  unfold lt, of_Z, Qltb, inject_Z. cbn [Qnum Qden].
  rewrite !Z.mul_1_r. reflexivity.
Qed.

Lemma lt_NaN_l (x : jsnum) : lt NaN x = false.
Proof. reflexivity. Qed.

Lemma lt_NaN_r (x : jsnum) : lt x NaN = false.
Proof. destruct x; reflexivity. Qed.

Lemma lt_PosInfinity_r (z : Z) : lt (of_Z z) PosInfinity = true.
Proof. reflexivity. Qed.

(** *** [Math.min] on integers *)

Lemma no_NaN_of_Z (l : list Z) : existsb isNaN (map of_Z l) = false.
Proof. induction l as [|x l IH]; [reflexivity | exact IH]. Qed.

Lemma fold_lowest_of_Z (l : list Z) : forall a : Z,
  fold_left (fun lowest n => if lt n lowest then n else lowest)
            (map of_Z l) (of_Z a)
  = of_Z (fold_left Z.min l a).
Proof.
  induction l as [|x l IH]; intros a; cbn [map fold_left]; [reflexivity|].
  rewrite lt_of_Z.
  destruct (Z.ltb_spec x a) as [Hlt|Hge].
  - rewrite IH. f_equal. f_equal. lia.
  - rewrite IH. f_equal. f_equal. lia.
Qed.

Lemma fold_min_le_init (l : list Z) : forall a : Z, fold_left Z.min l a <= a.
Proof.
  induction l as [|x l IH]; intros a; cbn [fold_left]; [lia|].
  specialize (IH (Z.min a x)). lia.
Qed.

Lemma fold_min_is_minimum (l : list Z) : forall a : Z,
  is_minimum (fold_left Z.min l a) (a :: l).
Proof.
  induction l as [|x l IH]; intros a; cbn [fold_left].
  - split; [left; reflexivity|]. intros y [<-|[]]. lia.
  - destruct (IH (Z.min a x)) as [Hin Hle]. split.
    + destruct Hin as [Heq|Hin].
      * rewrite <- Heq. destruct (Z.min_spec a x) as [[_ ->]|[_ ->]];
          [left; reflexivity | right; left; reflexivity].
      * right; right; exact Hin.
    + intros y [<-|[<-|Hy]].
      * pose proof (fold_min_le_init l (Z.min a x)). lia.
      * pose proof (fold_min_le_init l (Z.min a x)). lia.
      * apply Hle. right; exact Hy.
Qed.

Lemma Math_min_of_Z_cons (x : Z) (l : list Z) :
  Math_min (map of_Z (x :: l)) = of_Z (fold_left Z.min l x).
Proof.
  unfold Math_min. rewrite no_NaN_of_Z. cbn [map fold_left].
  rewrite lt_PosInfinity_r. apply fold_lowest_of_Z.
Qed.

Lemma is_minimum_unique (l : list Z) (m m' : Z) :
  is_minimum m l -> is_minimum m' l -> m = m'.
Proof.
  intros [Hin Hle] [Hin' Hle'].
  specialize (Hle _ Hin'). specialize (Hle' _ Hin).
  lia.
Qed.

Lemma Math_min_is_minimum (l : list Z) (m : Z) :
  is_minimum m l -> Math_min (map of_Z l) = of_Z m.
Proof.
  destruct l as [|x l]; intros Hm; [destruct Hm as [[] _]|].
  rewrite Math_min_of_Z_cons. f_equal. f_equal.
  eapply is_minimum_unique; [apply fold_min_is_minimum | exact Hm].
Qed.

Lemma Math_min_empty : Math_min (map of_Z []) = PosInfinity.
Proof. reflexivity. Qed.

(** *** Reading back the decimal text of an integer *)

Lemma take_digits_step (c : ascii) (v : Z) (s : string) (acc : Z) (n : nat) :
  digit_of 10 c = Some v ->
  take_digits 10 (String c s) acc n = take_digits 10 s (acc * 10 + v) (S n).
Proof. intros H. cbn [take_digits]. rewrite H. reflexivity. Qed.

Ltac digit_step v IH :=
  rewrite (take_digits_step _ v) by reflexivity;
  match goal with
  | |- take_digits _ _ ?a _ = (Z.pos (Pos.of_uint_acc _ ?q), _, _) =>
      replace a with (Z.pos q) by lia
  end;
  rewrite IH, Nat.add_succ_comm; reflexivity.

Lemma take_digits_uint_pos (d : uint) : forall (p : positive) (n : nat),
  take_digits 10 (NilEmpty.string_of_uint d) (Z.pos p) n
  = (Z.pos (Pos.of_uint_acc d p), (n + nb_digits d)%nat, EmptyString).
Proof.
  induction d; intros p n;
    cbn [NilEmpty.string_of_uint nb_digits Pos.of_uint_acc].
  - cbn [take_digits]. rewrite Nat.add_0_r. reflexivity.
  - digit_step 0 IHd.
  - digit_step 1 IHd.
  - digit_step 2 IHd.
  - digit_step 3 IHd.
  - digit_step 4 IHd.
  - digit_step 5 IHd.
  - digit_step 6 IHd.
  - digit_step 7 IHd.
  - digit_step 8 IHd.
  - digit_step 9 IHd.
Qed.

Ltac digit_first v :=
  rewrite (take_digits_step _ v) by reflexivity;
  change (0 * 10 + v) with v;
  rewrite take_digits_uint_pos, Nat.add_succ_comm; reflexivity.

Lemma take_digits_uint (d : uint) : forall n : nat,
  take_digits 10 (NilEmpty.string_of_uint d) 0 n
  = (Z.of_uint d, (n + nb_digits d)%nat, EmptyString).
Proof.
  unfold Z.of_uint.
  induction d; intros n;
    cbn [NilEmpty.string_of_uint nb_digits Pos.of_uint Z.of_N].
  - cbn [take_digits]. rewrite Nat.add_0_r. reflexivity.
  - rewrite (take_digits_step _ 0) by reflexivity.
    change (0 * 10 + 0) with 0.
    rewrite IHd, Nat.add_succ_comm. reflexivity.
  - digit_first 1.
  - digit_first 2.
  - digit_first 3.
  - digit_first 4.
  - digit_first 5.
  - digit_first 6.
  - digit_first 7.
  - digit_first 8.
  - digit_first 9.
Qed.

(** Case analysis on the comparisons of character codes. *)
Ltac code_cases :=
  repeat match goal with
  | |- context [?a <=? ?b] => destruct (Z.leb_spec a b)
  | |- context [?a =? ?b] => destruct (Z.eqb_spec a b)
  | H : context [?a <=? ?b] |- _ => destruct (Z.leb_spec a b)
  end;
  cbn [andb orb] in *; try discriminate; try lia; try reflexivity.

Lemma string_of_uint_head (d : uint) :
  d <> Nil ->
  exists c s, NilEmpty.string_of_uint d = String c s /\ is_digit c = true
    /\ match s with String c' _ => is_digit c' = true | EmptyString => True end.
Proof.
  intros Hd. destruct d as [|d|d|d|d|d|d|d|d|d|d]; [congruence|..];
    (eexists; eexists; split; [reflexivity|split; [reflexivity|]]);
    destruct d; exact I || reflexivity.
Qed.

Lemma skip_ws_digit c s :
  is_digit c = true -> skip_ws (String c s) = String c s.
Proof.
  unfold is_digit. intros H. cbn [skip_ws]. unfold is_ws. code_cases.
Qed.

Lemma radix_of_prefix_digits c s :
  match s with String c' _ => is_digit c' = true | EmptyString => True end ->
  radix_of_prefix (String c s) = None.
Proof.
  destruct s as [|c' s]; [reflexivity|].
  unfold is_digit. intros H. cbn [radix_of_prefix]. code_cases.
Qed.

Lemma parse_decimal_digit c s :
  is_digit c = true -> parse_decimal (String c s) = parse_unsigned (String c s).
Proof.
  unfold is_digit. intros H. cbn [parse_decimal]. code_cases.
Qed.

Lemma strip_prefix_digit c s :
  is_digit c = true -> strip_prefix "Infinity" (String c s) = None.
Proof.
  intros H. unfold strip_prefix. cbn [String.prefix].
  destruct (ascii_dec "I" c) as [<-|_]; [discriminate H | reflexivity].
Qed.

Lemma parse_numeric_uint (d : uint) :
  d <> Nil ->
  parse_numeric (NilEmpty.string_of_uint d)
  = Some (of_Z (Z.of_uint d), EmptyString).
Proof.
  intros Hd. destruct (string_of_uint_head d Hd) as (c & s & E & Hc & Hs).
  unfold parse_numeric. rewrite E, radix_of_prefix_digits by exact Hs.
  rewrite parse_decimal_digit by exact Hc.
  unfold parse_unsigned. rewrite strip_prefix_digit by exact Hc.
  rewrite <- E. unfold parse_unsigned_decimal. rewrite take_digits_uint.
  destruct (nb_digits d) eqn:En.
  - destruct d; discriminate En || congruence.
  - cbn [Nat.add parse_exponent]. unfold dec_value.
    change (- Z.of_nat 0) with 0. change (0 <=? 0) with true. cbn iota.
    change (10 ^ 0) with 1. rewrite Z.mul_1_r. reflexivity.
Qed.

Lemma StringToNumber_uint (d : uint) :
  d <> Nil -> StringToNumber (NilEmpty.string_of_uint d) = of_Z (Z.of_uint d).
Proof.
  intros Hd. unfold StringToNumber.
  destruct (string_of_uint_head d Hd) as (c & s & E & Hc & Hs).
  rewrite E, skip_ws_digit by exact Hc. rewrite <- E.
  rewrite parse_numeric_uint by exact Hd. reflexivity.
Qed.

Lemma StringToNumber_neg_uint (d : uint) :
  d <> Nil ->
  StringToNumber (String "-" (NilEmpty.string_of_uint d))
  = of_Z (- Z.of_uint d).
Proof.
  intros Hd. unfold StringToNumber.
  change (skip_ws (String "-" ?t)) with (String "-" t).
  cbv beta iota.
  assert (Hp : parse_numeric (String "-" (NilEmpty.string_of_uint d))
               = Some (of_Z (- Z.of_uint d), EmptyString)).
  { unfold parse_numeric.
    replace (radix_of_prefix (String "-" (NilEmpty.string_of_uint d)))
      with (@None (Z * string))
      by (destruct (NilEmpty.string_of_uint d); reflexivity).
    change (parse_decimal (String "-" ?t))
      with (match parse_unsigned t with
            | Some (v, rest) => Some (negate v, rest)
            | None => None
            end).
    destruct (string_of_uint_head d Hd) as (c & s & E & Hc & Hs).
    pose proof (parse_numeric_uint d Hd) as Hn. unfold parse_numeric in Hn.
    rewrite E, radix_of_prefix_digits, parse_decimal_digit in Hn by assumption.
    rewrite E, Hn. reflexivity. }
  rewrite Hp. reflexivity.
Qed.

Lemma StringToNumber_NumberToString (z : Z) :
  StringToNumber (NumberToString z) = of_Z z.
Proof.
  unfold NumberToString.
  destruct z as [|p|p]; cbn [Z.to_int NilEmpty.string_of_int].
  - reflexivity.
  - rewrite StringToNumber_uint by apply Unsigned.to_uint_nonnil.
    unfold Z.of_uint. rewrite Unsigned.of_to. reflexivity.
  - rewrite StringToNumber_neg_uint by apply Unsigned.to_uint_nonnil.
    unfold Z.of_uint. rewrite Unsigned.of_to. reflexivity.
Qed.

Lemma NumberToString_nonempty (z : Z) : NumberToString z <> EmptyString.
Proof.
  unfold NumberToString.
  destruct z as [|p|p]; cbn [Z.to_int NilEmpty.string_of_int];
    try discriminate.
  destruct (string_of_uint_head _ (Unsigned.to_uint_nonnil p))
    as (c & s & E & _).
  rewrite E. discriminate.
Qed.

End JsFacts.

(** ** The runs of the guard *)

Module GuardFacts.

Lemma verdict_denies (level minRoleLevel : Js.jsnum) :
  verdict level minRoleLevel = Throw AuthorizationError
  <-> Js.lt level minRoleLevel = true.
Proof.
  unfold verdict. destruct (Js.lt level minRoleLevel); split;
    congruence || discriminate.
Qed.

Lemma verdict_not_AuthenticationError (level minRoleLevel : Js.jsnum) :
  verdict level minRoleLevel <> Throw AuthenticationError.
Proof. unfold verdict. destruct (Js.lt level minRoleLevel); discriminate. Qed.

Lemma world_eq (r : gmap string string) (t : list Prisma.AuthCode)
    (es es' : list Event) :
  es = es' ->
  {| redis := r; authCodeTable := t; events := es |}
  = {| redis := r; authCodeTable := t; events := es' |}.
Proof. intros ->. reflexivity. Qed.

(** No metadata on the handler: nothing is read, nothing is written. *)
Lemma run_no_roles (context : ExecutionContext) (w : World) :
  reflector_get context = None -> canActivate context w = (Return true, w).
Proof. intros H. unfold canActivate. rewrite H. reflexivity. Qed.

(** Hit: the cached text decides. *)
Lemma run_hit (context : ExecutionContext) (l : list Z) (w : World) :
  reflector_get context = Some l ->
  cacheMiss context w = false ->
  canActivate context w
  = (verdict (Number (cached w (requestKey context)))
             (Js.Math_min (map Js.of_Z l)),
     record [RedisGet (requestKey context);
             ConsoleLog (cached w (requestKey context))] w).
Proof.
  intros Hl Hhit. unfold canActivate. rewrite Hl.
  unfold cacheMiss, cached, requestKey in *.
  unfold bind, redis_client_get, console_log, emit, ret, throw, verdict, record;
    cbn [redis authCodeTable events fst snd].
  rewrite Hhit.
  match goal with |- context [Js.lt ?a ?b] => destruct (Js.lt a b) end;
    (f_equal; apply world_eq; rewrite <- app_assoc; reflexivity).
Qed.

(** Miss without an authoritative record. *)
Lemma run_miss_absent (context : ExecutionContext) (l : list Z) (w : World) :
  reflector_get context = Some l ->
  cacheMiss context w = true ->
  authoritative context w = None ->
  canActivate context w
  = (Throw AuthenticationError,
     record [RedisGet (requestKey context);
             ConsoleLog (cached w (requestKey context));
             PrismaFindUnique (user_id (request_user context))
                              (auth_code (request_user context))] w).
Proof.
  intros Hl Hmiss Habs. unfold canActivate. rewrite Hl.
  unfold cacheMiss, cached, requestKey, authoritative in *.
  unfold bind, redis_client_get, console_log, emit, ret, throw,
    prisma_authCode_findUnique, record;
    cbn [redis authCodeTable events fst snd].
  rewrite Hmiss. cbn [redis authCodeTable events fst snd]. rewrite Habs.
  f_equal. apply world_eq. rewrite <- !app_assoc. reflexivity.
Qed.

(** Miss with an authoritative record: the cache is populated, then the
    level of the record decides. *)
Lemma run_miss_found (context : ExecutionContext) (l : list Z) (w : World)
    (a : Prisma.AuthCode) :
  reflector_get context = Some l ->
  cacheMiss context w = true ->
  authoritative context w = Some a ->
  canActivate context w
  = (verdict (Js.of_Z (Prisma.roleLevel a)) (Js.Math_min (map Js.of_Z l)),
     with_redis
       (<[requestKey context := Js.NumberToString (Prisma.roleLevel a)]>
          (redis w))
       (record [RedisGet (requestKey context);
                ConsoleLog (cached w (requestKey context));
                PrismaFindUnique (user_id (request_user context))
                                 (auth_code (request_user context));
                RedisSet (requestKey context)
                         (Js.NumberToString (Prisma.roleLevel a))] w)).
Proof.
  intros Hl Hmiss Hrec. unfold canActivate. rewrite Hl.
  unfold cacheMiss, cached, requestKey, authoritative in *.
  unfold bind, redis_client_get, console_log, emit, ret, throw,
    prisma_authCode_findUnique, redisService_set, record, with_redis, verdict;
    cbn [redis authCodeTable events fst snd].
  rewrite Hmiss. cbn [redis authCodeTable events fst snd]. rewrite Hrec.
  cbn [redis authCodeTable events fst snd Number].
  match goal with |- context [Js.lt ?a ?b] => destruct (Js.lt a b) end;
    (f_equal; apply world_eq; rewrite <- !app_assoc; reflexivity).
Qed.

End GuardFacts.

(** ** Exact levels *)

Module ExactFacts.

(** An integer level compares as the integer. *)
Lemma lt_holds_integer (e : Js.jsnum) (r m : Z) :
  holds_integer e r -> Js.lt e (Js.of_Z m) = (r <? m).
Proof.
  destruct e as [| | |q]; cbn [holds_integer]; try contradiction.
  unfold Qeq. cbn [inject_Z Qnum Qden Js.lt Js.of_Z]. unfold Js.Qltb.
  cbn [inject_Z Qnum Qden]. intros H.
  destruct (Z.ltb_spec r m); [apply Z.ltb_lt | apply Z.ltb_ge]; nia.
Qed.

Lemma holds_integer_of_Z (r : Z) : holds_integer (Js.of_Z r) r.
Proof. cbn. reflexivity. Qed.

Lemma exact_of_Z (r : Z) : safe_integer r -> exact_level (Js.of_Z r).
Proof. intros H. exists r. split; [reflexivity | exact H]. Qed.

(** The decision of a gated call on an effective level, against the
    minimum of a non-empty collection. *)
Lemma decision (context : ExecutionContext) (l : list Z) (m : Z) (w : World)
    (e : Js.jsnum) :
  reflector_get context = Some l ->
  is_minimum m l ->
  effectiveRoleLevel context w = Some e ->
  fst (canActivate context w) = verdict e (Js.of_Z m).
Proof.
  intros Hl Hm He. unfold effectiveRoleLevel in He.
  rewrite <- (JsFacts.Math_min_is_minimum _ _ Hm).
  destruct (cacheMiss context w) eqn:Hmiss.
  - destruct (authoritative context w) as [a|] eqn:Hrec; [|discriminate].
    injection He as <-.
    rewrite (GuardFacts.run_miss_found _ _ _ _ Hl Hmiss Hrec). reflexivity.
  - injection He as <-.
    rewrite (GuardFacts.run_hit _ _ _ Hl Hmiss). reflexivity.
Qed.

Lemma verdict_returns (level minRoleLevel : Js.jsnum) :
  verdict level minRoleLevel = Return true
  <-> Js.lt level minRoleLevel = false.
Proof.
  unfold verdict. destruct (Js.lt level minRoleLevel); split;
    congruence || discriminate.
Qed.

End ExactFacts.

(** ** Properties of the guard *)

(** *** The comparison: who is denied *)

(** C1, as the code has it.  For a handler with role levels whose numeric
    minimum is [m], and an effective role level [e] obtained from the cache
    or from the authoritative store -- a level [Number] yields exactly, as
    every integer role level is -- [canActivate] fails with
    AuthorizationError if and only if [e] is strictly LESS than [m]; for an
    integer level [r] that is [r < m].  A level equal to or above the minimum
    is allowed. *)
Theorem canActivate_denies_iff_level_below_min
    (context : ExecutionContext) (l : list Z) (m : Z) (w : World)
    (e : Js.jsnum) :
  reflector_get context = Some l ->
  is_minimum m l ->
  safe_integer m ->
  effectiveRoleLevel context w = Some e ->
  exact_level e ->
  (fst (canActivate context w) = Throw AuthorizationError
   <-> Js.lt e (Js.of_Z m) = true)
  /\ (forall r : Z, holds_integer e r ->
        (fst (canActivate context w) = Throw AuthorizationError <-> r < m)).
Proof.
  intros Hl Hm _ He _.
  rewrite (ExactFacts.decision _ _ _ _ _ Hl Hm He).
  split; [apply GuardFacts.verdict_denies|].
  intros r Hr. rewrite GuardFacts.verdict_denies.
  rewrite (ExactFacts.lt_holds_integer _ _ _ Hr). apply Z.ltb_lt.
Qed.

(** The theorem at work: the record of the user has level 0 and the handler
    asks for the levels 1 and 2. *)
Lemma canActivate_denies_iff_level_below_min_witness :
  reflector_get (gated [2; 1]) = Some [2; 1]
  /\ is_minimum 1 [2; 1]
  /\ safe_integer 1
  /\ effectiveRoleLevel (gated [2; 1]) (cold [alice_row 0])
     = Some (Js.of_Z 0)
  /\ exact_level (Js.of_Z 0)
  /\ (fst (canActivate (gated [2; 1]) (cold [alice_row 0]))
      = Throw AuthorizationError <-> 0 < 1).
Proof.
  assert (Hmin : is_minimum 1 [2; 1]).
  { split; [right; left; reflexivity|].
    intros x [<-|[<-|[]]]; lia. }
  assert (Hsafe : safe_integer 1) by (unfold safe_integer; cbn; lia).
  assert (Hexact : exact_level (Js.of_Z 0)).
  { exists 0. split; [reflexivity|]. unfold safe_integer. cbn. lia. }
  split; [reflexivity|]. split; [exact Hmin|]. split; [exact Hsafe|].
  split; [reflexivity|]. split; [exact Hexact|].
  exact (proj2 (canActivate_denies_iff_level_below_min
                  (gated [2; 1]) [2; 1] 1 (cold [alice_row 0]) (Js.of_Z 0)
                  eq_refl Hmin Hsafe eq_refl Hexact) 0 (Qeq_refl _)).
Defined.

(** C1 as the specification words it fails: with an authoritative level of 5
    and a minimum of 1 the level is strictly greater than the minimum, and
    the guard allows. *)
Lemma level_above_min_is_allowed :
  fst (canActivate (gated [1]) (cold [alice_row 5])) = Return true
  /\ ~ (fst (canActivate (gated [1]) (cold [alice_row 5]))
        = Throw AuthorizationError <-> 1 < 5).
Proof.
  assert (H : fst (canActivate (gated [1]) (cold [alice_row 5]))
              = Return true) by reflexivity.
  split; [exact H|]. rewrite H. intros [_ Hback].
  discriminate (Hback ltac:(lia)).
Qed.

(** The two allowing examples of the specification: level 2 against a
    minimum of 1, and equal levels. *)
Example level_2_min_1_allowed :
  fst (canActivate (gated [1]) (cold [alice_row 2])) = Return true.
Proof. reflexivity. Qed.

Example equal_levels_allowed :
  fst (canActivate (gated [1]) (cold [alice_row 1])) = Return true.
Proof. reflexivity. Qed.

(** *** Handlers without role metadata *)

(** C2, as the code has it.  When the handler has no role metadata (the
    collection is absent), [canActivate] returns [true] whatever the
    identity, the session code, the cache and the store, and the world is
    left as it was: neither the cache nor the store is consulted. *)
Theorem canActivate_without_metadata_allows
    (context : ExecutionContext) (w : World) :
  reflector_get context = None ->
  canActivate context w = (Return true, w).
Proof. apply GuardFacts.run_no_roles. Qed.

Lemma canActivate_without_metadata_allows_witness :
  reflector_get ungated = None
  /\ canActivate ungated (warm "role_u1_c1" "abc" [])
     = (Return true, warm "role_u1_c1" "abc" []).
Proof.
  split; [reflexivity|].
  exact (canActivate_without_metadata_allows
           ungated (warm "role_u1_c1" "abc" []) eq_refl).
Defined.

(** C2 fails on an EMPTY collection: the array is truthy, its minimum is
    +Infinity, the cache and the store are consulted and a user with a valid
    record is denied. *)
Lemma empty_levels_are_not_allowed :
  fst (canActivate (gated []) (cold [alice_row 1])) = Throw AuthorizationError
  /\ events (snd (canActivate (gated []) (cold [alice_row 1])))
     = [RedisGet "role_u1_c1"; ConsoleLog JNull;
        PrismaFindUnique "u1" "c1"; RedisSet "role_u1_c1" "1"].
Proof. split; reflexivity. Qed.

(** *** Cached text that is not a number *)

(** C3, as the code has it.  A non-empty cached text that [Number] cannot
    parse is a HIT, not a miss: [canActivate] does not throw, does not call
    the authoritative store and does not write the cache; the text converts
    to NaN, NaN is below no minimum, and the guard returns [true]. *)
Theorem canActivate_unparsable_cached_text_is_a_hit
    (context : ExecutionContext) (l : list Z) (w : World) (s : string) :
  reflector_get context = Some l ->
  redis w !! requestKey context = Some s ->
  s <> EmptyString ->
  Js.StringToNumber s = Js.NaN ->
  canActivate context w
  = (Return true,
     record [RedisGet (requestKey context); ConsoleLog (JString s)] w).
Proof.
  intros Hl Hs Hne Hnan.
  assert (Hc : cached w (requestKey context) = JString s)
    by (unfold cached; rewrite Hs; reflexivity).
  assert (Hhit : cacheMiss context w = false).
  { unfold cacheMiss. rewrite Hc. destruct s; [congruence | reflexivity]. }
  rewrite (GuardFacts.run_hit _ _ _ Hl Hhit), Hc.
  cbn [Number]. rewrite Hnan. unfold verdict.
  rewrite JsFacts.lt_NaN_l. reflexivity.
Qed.

Lemma canActivate_unparsable_cached_text_is_a_hit_witness :
  reflector_get (gated [1]) = Some [1]
  /\ redis (warm "role_u1_c1" "abc" [alice_row 0])
       !! requestKey (gated [1]) = Some "abc"
  /\ "abc" <> EmptyString
  /\ Js.StringToNumber "abc" = Js.NaN
  /\ canActivate (gated [1]) (warm "role_u1_c1" "abc" [alice_row 0])
     = (Return true,
        record [RedisGet (requestKey (gated [1])); ConsoleLog (JString "abc")]
               (warm "role_u1_c1" "abc" [alice_row 0])).
Proof.
  assert (Hne : "abc" <> EmptyString) by discriminate.
  split; [reflexivity|]. split; [reflexivity|]. split; [exact Hne|].
  split; [reflexivity|].
  exact (canActivate_unparsable_cached_text_is_a_hit
           (gated [1]) [1] (warm "role_u1_c1" "abc" [alice_row 0]) "abc"
           eq_refl eq_refl Hne eq_refl).
Defined.

(** C3 as the specification words it fails: with the text [abc] cached, and
    a record of level 0 that a miss would have found and denied against the
    minimum 1, the guard allows, and the store is never called. *)
Lemma unparsable_cached_text_is_not_a_miss :
  fst (canActivate (gated [1]) (warm "role_u1_c1" "abc" [alice_row 0]))
  = Return true
  /\ fst (canActivate (gated [1])
            (evict "role_u1_c1" (warm "role_u1_c1" "abc" [alice_row 0])))
     = Throw AuthorizationError
  /\ store_calls
       (events (snd (canActivate (gated [1])
                       (warm "role_u1_c1" "abc" [alice_row 0])))) = 0%nat.
Proof. repeat split; reflexivity. Qed.

(** *** No authoritative record *)

(** C4.  When the lookup of the request misses and the store holds no record
    matching exactly (identity, sessionCode), [canActivate] fails with
    AuthenticationError, whatever else the cache holds under other keys and
    whatever the levels of the handler are. *)
Theorem canActivate_without_record_fails_authentication
    (context : ExecutionContext) (l : list Z) (w : World) :
  reflector_get context = Some l ->
  cacheMiss context w = true ->
  authoritative context w = None ->
  fst (canActivate context w) = Throw AuthenticationError.
Proof.
  intros Hl Hmiss Habs.
  rewrite (GuardFacts.run_miss_absent _ _ _ Hl Hmiss Habs). reflexivity.
Qed.

(** The theorem at work: the cache holds the level of another session of the
    same user and the table holds that other session only. *)
Lemma canActivate_without_record_fails_authentication_witness :
  reflector_get (gated [1]) = Some [1]
  /\ cacheMiss (gated [1])
       (warm "role_u1_c0" "5"
             [{| Prisma.id := "u1"; Prisma.authCode := "c0";
                 Prisma.roleLevel := 5 |}]) = true
  /\ authoritative (gated [1])
       (warm "role_u1_c0" "5"
             [{| Prisma.id := "u1"; Prisma.authCode := "c0";
                 Prisma.roleLevel := 5 |}]) = None
  /\ fst (canActivate (gated [1])
            (warm "role_u1_c0" "5"
                  [{| Prisma.id := "u1"; Prisma.authCode := "c0";
                      Prisma.roleLevel := 5 |}]))
     = Throw AuthenticationError.
Proof.
  split; [reflexivity|]. split; [reflexivity|]. split; [reflexivity|].
  exact (canActivate_without_record_fails_authentication
           (gated [1]) [1]
           (warm "role_u1_c0" "5"
                 [{| Prisma.id := "u1"; Prisma.authCode := "c0";
                     Prisma.roleLevel := 5 |}])
           eq_refl eq_refl eq_refl).
Defined.

(** *** The cache key *)

Lemma joined_inj (id1 id2 c1 c2 : string) :
  no_separator id1 = true -> no_separator id2 = true ->
  id1 +:+ "_" +:+ c1 = id2 +:+ "_" +:+ c2 ->
  id1 = id2 /\ c1 = c2.
Proof.
  revert id2. induction id1 as [|a id1 IH]; intros [|b id2] H1 H2 Heq.
  - change (String "_" c1 = String "_" c2) in Heq.
    injection Heq as ->. split; reflexivity.
  - change (String "_" c1 = String b (id2 +:+ "_" +:+ c2)) in Heq.
    injection Heq as <- _. discriminate H2.
  - change (String a (id1 +:+ "_" +:+ c1) = String "_" c2) in Heq.
    injection Heq as -> _. discriminate H1.
  - change (String a (id1 +:+ "_" +:+ c1) = String b (id2 +:+ "_" +:+ c2))
      in Heq.
    injection Heq as -> Heq.
    cbn [no_separator] in H1, H2.
    apply andb_true_iff in H1 as [_ H1]. apply andb_true_iff in H2 as [_ H2].
    destruct (IH id2 H1 H2 Heq) as [-> ->]. split; reflexivity.
Qed.

(** C5, as the code has it.  The key is a function of the pair, so equal
    pairs yield the same key; and when neither identity contains the
    separator [_], two pairs that differ in a component yield distinct
    keys. *)
Theorem cacheKey_injective_on_identities_without_separator
    (id1 authCode1 id2 authCode2 : string) :
  no_separator id1 = true ->
  no_separator id2 = true ->
  (cacheKey id1 authCode1 = cacheKey id2 authCode2
   <-> (id1, authCode1) = (id2, authCode2)).
Proof.
  intros H1 H2. split.
  - unfold cacheKey. intros Heq.
    change (String "r" (String "o" (String "l" (String "e" (String "_"
              (id1 +:+ "_" +:+ authCode1)))))
            = String "r" (String "o" (String "l" (String "e" (String "_"
              (id2 +:+ "_" +:+ authCode2)))))) in Heq.
    injection Heq as Heq.
    destruct (joined_inj _ _ _ _ H1 H2 Heq) as [-> ->]. reflexivity.
  - intros [= -> ->]. reflexivity.
Qed.

Lemma cacheKey_injective_on_identities_without_separator_witness :
  no_separator "u1" = true
  /\ no_separator "u2" = true
  /\ (cacheKey "u1" "c_1" = cacheKey "u2" "c_1"
      <-> ("u1", "c_1") = ("u2", "c_1")).
Proof.
  split; [reflexivity|]. split; [reflexivity|].
  exact (cacheKey_injective_on_identities_without_separator
           "u1" "c_1" "u2" "c_1" eq_refl eq_refl).
Defined.

(** C5 as the specification words it fails: the plain concatenation sends
    two different pairs to one key when the separator occurs in them. *)
Lemma cacheKey_collision :
  ("a_b", "c") <> ("a", "b_c")
  /\ cacheKey "a_b" "c" = cacheKey "a" "b_c".
Proof. split; [discriminate | reflexivity]. Qed.

(** What a collision means for the guard: the pair (a, b_c) has no record,
    but the level cached for the pair (a_b, c) sits under its key, so its
    lookup hits and it is allowed. *)
Example colliding_pair_is_served_the_other_entry :
  canActivate {| handler_roles := Some [1];
                 request_user := {| user_id := "a"; auth_code := "b_c" |} |}
              (warm (cacheKey "a_b" "c") "5" [])
  = (Return true,
     record [RedisGet "role_a_b_c"; ConsoleLog (JString "5")]
            (warm (cacheKey "a_b" "c") "5" [])).
Proof. reflexivity. Qed.

(** *** The second call is served by the cache *)

Lemma store_calls_app (es es' : list Event) :
  store_calls (es ++ es') = (store_calls es + store_calls es')%nat.
Proof.
  unfold store_calls. rewrite List.filter_app, List.length_app. reflexivity.
Qed.

Lemma cache_writes_app (es es' : list Event) :
  cache_writes (es ++ es') = (cache_writes es + cache_writes es')%nat.
Proof.
  unfold cache_writes. rewrite List.filter_app, List.length_app. reflexivity.
Qed.

(** C6.  After a call that misses the cache, finds the authoritative record
    and populates the cache, a second call for the same request returns the
    same decision, adds no call on the authoritative store and leaves the
    cache as it is -- whatever the store has become in between (the record
    is not checked again on the hit path). *)
Theorem canActivate_second_call_is_served_by_cache
    (context : ExecutionContext) (l : list Z) (w : World)
    (a : Prisma.AuthCode) (table' : list Prisma.AuthCode) :
  reflector_get context = Some l ->
  cacheMiss context w = true ->
  authoritative context w = Some a ->
  let first := canActivate context w in
  let second := canActivate context (with_table table' (snd first)) in
  fst second = fst first
  /\ store_calls (events (snd second)) = store_calls (events (snd first))
  /\ redis (snd second) = redis (snd first).
Proof.
  intros Hl Hmiss Hrec first second. subst first second.
  rewrite (GuardFacts.run_miss_found _ _ _ _ Hl Hmiss Hrec). cbn [fst snd].
  set (w1 := with_table table' _).
  assert (Hc : cached w1 (requestKey context)
               = JString (Js.NumberToString (Prisma.roleLevel a))).
  { unfold cached, w1, with_table, with_redis. cbn [redis].
    rewrite lookup_insert_eq. reflexivity. }
  assert (Hhit : cacheMiss context w1 = false).
  { unfold cacheMiss. rewrite Hc.
    pose proof (JsFacts.NumberToString_nonempty (Prisma.roleLevel a)) as Hne.
    destruct (Js.NumberToString (Prisma.roleLevel a));
      [congruence | reflexivity]. }
  rewrite (GuardFacts.run_hit _ _ _ Hl Hhit), Hc. cbn [fst snd Number].
  rewrite JsFacts.StringToNumber_NumberToString.
  split; [reflexivity|]. split; [|reflexivity].
  unfold record. cbn [events]. rewrite store_calls_app. cbn.
  apply Nat.add_0_r.
Qed.

(** The theorem at work: the first call denies a user of level 0 against
    the minimum 1; the record is then deleted; the second call still denies,
    from the cache. *)
Lemma canActivate_second_call_is_served_by_cache_witness :
  reflector_get (gated [1]) = Some [1]
  /\ cacheMiss (gated [1]) (cold [alice_row 0]) = true
  /\ authoritative (gated [1]) (cold [alice_row 0]) = Some (alice_row 0)
  /\ fst (canActivate (gated [1])
            (with_table []
               (snd (canActivate (gated [1]) (cold [alice_row 0])))))
     = fst (canActivate (gated [1]) (cold [alice_row 0])).
Proof.
  split; [reflexivity|]. split; [reflexivity|]. split; [reflexivity|].
  exact (proj1 (canActivate_second_call_is_served_by_cache
                  (gated [1]) [1] (cold [alice_row 0]) (alice_row 0) []
                  eq_refl eq_refl eq_refl)).
Defined.

(** *** The minimum of the required levels *)

Lemma is_minimum_exists (l : list Z) : l <> [] -> exists m, is_minimum m l.
Proof.
  destruct l as [|x l]; [congruence|]. intros _.
  exists (fold_left Z.min l x). apply JsFacts.fold_min_is_minimum.
Qed.

(** C7.  For a non-empty collection of levels, integers a number holds
    exactly, the minimum [canActivate] compares against is the numeric
    minimum [m] of the collection: it is an element, no element is below it,
    [Math.min] returns it, the guard runs on the collection as it runs on
    [m] alone, and a caller of integer level [r] is denied exactly when
    [r < m] and allowed exactly when [m <= r]. *)
Theorem canActivate_compares_against_numeric_minimum (l : list Z) :
  l <> [] ->
  (forall x, In x l -> safe_integer x) ->
  exists m : Z,
    is_minimum m l
    /\ Js.Math_min (map Js.of_Z l) = Js.of_Z m
    /\ (forall (context : ExecutionContext) (w : World),
          canActivate (with_roles (Some l) context) w
          = canActivate (with_roles (Some [m]) context) w)
    /\ (forall (context : ExecutionContext) (w : World) (e : Js.jsnum)
               (r : Z),
          effectiveRoleLevel context w = Some e ->
          holds_integer e r ->
          safe_integer r ->
          (fst (canActivate (with_roles (Some l) context) w)
           = Throw AuthorizationError <-> r < m)
          /\ (fst (canActivate (with_roles (Some l) context) w)
              = Return true <-> m <= r)).
Proof.
  intros Hne _. destruct (is_minimum_exists l Hne) as [m Hm].
  exists m. split; [exact Hm|].
  pose proof (JsFacts.Math_min_is_minimum l m Hm) as Hmin.
  split; [exact Hmin|]. split.
  - intros context w. unfold canActivate, with_roles.
    cbn [reflector_get handler_roles request_user]. rewrite Hmin.
    reflexivity.
  - intros context w e r He Hr _.
    rewrite (ExactFacts.decision (with_roles (Some l) context) l m w e
               eq_refl Hm He).
    rewrite GuardFacts.verdict_denies, ExactFacts.verdict_returns.
    rewrite (ExactFacts.lt_holds_integer _ _ _ Hr).
    split; [apply Z.ltb_lt | apply Z.ltb_ge].
Qed.

(** The example of the specification: the minimum of 3, 1 and 5. *)
Lemma canActivate_compares_against_numeric_minimum_witness :
  [3; 1; 5] <> []
  /\ (forall x, In x [3; 1; 5] -> safe_integer x)
  /\ exists m : Z,
       is_minimum m [3; 1; 5]
       /\ Js.Math_min (map Js.of_Z [3; 1; 5]) = Js.of_Z m.
Proof.
  assert (Hne : [3; 1; 5] <> []) by discriminate.
  assert (Hsafe : forall x, In x [3; 1; 5] -> safe_integer x).
  { intros x [<-|[<-|[<-|[]]]]; unfold safe_integer; cbn; lia. }
  split; [exact Hne|]. split; [exact Hsafe|].
  destruct (canActivate_compares_against_numeric_minimum [3; 1; 5] Hne Hsafe)
    as (m & Hm & Hmin & _).
  exists m. split; [exact Hm | exact Hmin].
Defined.

Example minimum_of_3_1_5 : Js.Math_min (map Js.of_Z [3; 1; 5]) = Js.of_Z 1.
Proof. reflexivity. Qed.

(** *** The authoritative store is only read *)

Lemma frames_ret {A} (a : A) : frames_table (ret a).
Proof. intros w. reflexivity. Qed.

Lemma frames_throw {A} (e : Exception) : frames_table (@throw A e).
Proof. intros w. reflexivity. Qed.

Lemma frames_bind {A B} (m : M A) (k : A -> M B) :
  frames_table m -> (forall a, frames_table (k a)) -> frames_table (bind m k).
Proof.
  intros Hm Hk w. unfold bind. specialize (Hm w).
  destruct (m w) as [[a|e] w'] eqn:E; cbn [snd] in Hm.
  - rewrite Hk. exact Hm.
  - exact Hm.
Qed.

Lemma frames_redis_client_get (key : string) :
  frames_table (redis_client_get key).
Proof. intros w. reflexivity. Qed.

Lemma frames_redisService_set (key : string) (value : Z) :
  frames_table (redisService_set key value).
Proof. intros w. reflexivity. Qed.

Lemma frames_prisma_authCode_findUnique (where_id where_authCode : string) :
  frames_table (prisma_authCode_findUnique where_id where_authCode).
Proof. intros w. reflexivity. Qed.

Lemma frames_console_log (v : JsVal) : frames_table (console_log v).
Proof. intros w. reflexivity. Qed.

Lemma frames_canActivate (context : ExecutionContext) :
  frames_table (canActivate context).
Proof.
  unfold canActivate. destruct (reflector_get context) as [l|].
  - apply frames_bind; [apply frames_redis_client_get|]. intros v.
    apply frames_bind; [apply frames_console_log|]. intros _.
    apply frames_bind.
    + destruct (falsy v); [|apply frames_ret].
      apply frames_bind; [apply frames_prisma_authCode_findUnique|].
      intros [a|]; [|apply frames_throw].
      apply frames_bind; [apply frames_redisService_set|]. intros _.
      apply frames_ret.
    + intros v'.
      destruct (Js.lt (Number v') (Js.Math_min (map Js.of_Z l)));
        [apply frames_throw | apply frames_ret].
  - apply frames_ret.
Qed.

(** C8.  Whatever the context, the world and the outcome, the authoritative
    table after [canActivate] is the table before it: the guard reads the
    store and never writes it. *)
Theorem canActivate_never_writes_the_store
    (context : ExecutionContext) (w : World) :
  authCodeTable (snd (canActivate context w)) = authCodeTable w.
Proof. apply frames_canActivate. Qed.

(** *** A failed authentication leaves the cache alone *)

(** C9.  When [canActivate] fails with AuthenticationError, the cache after
    the call is the cache before it and no write to the cache is among the
    events of the call. *)
Theorem canActivate_authentication_failure_keeps_cache
    (context : ExecutionContext) (w : World) :
  fst (canActivate context w) = Throw AuthenticationError ->
  redis (snd (canActivate context w)) = redis w
  /\ cache_writes (events (snd (canActivate context w)))
     = cache_writes (events w).
Proof.
  destruct (reflector_get context) as [l|] eqn:Hl.
  - destruct (cacheMiss context w) eqn:Hmiss.
    + destruct (authoritative context w) as [a|] eqn:Hrec.
      * rewrite (GuardFacts.run_miss_found _ _ _ _ Hl Hmiss Hrec). cbn [fst].
        intros H. destruct (GuardFacts.verdict_not_AuthenticationError _ _ H).
      * rewrite (GuardFacts.run_miss_absent _ _ _ Hl Hmiss Hrec). intros _.
        cbn [snd]. unfold record. cbn [redis events].
        split; [reflexivity|]. rewrite cache_writes_app. cbn.
        apply Nat.add_0_r.
    + rewrite (GuardFacts.run_hit _ _ _ Hl Hmiss). cbn [fst].
      intros H. destruct (GuardFacts.verdict_not_AuthenticationError _ _ H).
  - rewrite (GuardFacts.run_no_roles _ _ Hl). discriminate.
Qed.

Lemma canActivate_authentication_failure_keeps_cache_witness :
  fst (canActivate (gated [1]) (warm "role_u1_c0" "5" []))
  = Throw AuthenticationError
  /\ redis (snd (canActivate (gated [1]) (warm "role_u1_c0" "5" [])))
     = redis (warm "role_u1_c0" "5" []).
Proof.
  split; [reflexivity|].
  exact (proj1 (canActivate_authentication_failure_keeps_cache
                  (gated [1]) (warm "role_u1_c0" "5" []) eq_refl)).
Defined.

(** *** Determinism *)

Module Interleaving.








End Interleaving.




(** ** Further properties of the guard *)

Module GuardRuns.

(** The decision of a gated call, from the effective level. *)
Lemma outcome_of_level (context : ExecutionContext) (l : list Z) (w : World)
    (e : Js.jsnum) :
  reflector_get context = Some l ->
  effectiveRoleLevel context w = Some e ->
  fst (canActivate context w) = verdict e (Js.Math_min (map Js.of_Z l)).
Proof.
  intros Hl He. unfold effectiveRoleLevel in He.
  destruct (cacheMiss context w) eqn:Hmiss.
  - destruct (authoritative context w) as [a|] eqn:Hrec; [|discriminate].
    injection He as <-.
    rewrite (GuardFacts.run_miss_found _ _ _ _ Hl Hmiss Hrec). reflexivity.
  - injection He as <-.
    rewrite (GuardFacts.run_hit _ _ _ Hl Hmiss). reflexivity.
Qed.

Lemma outcome_without_level (context : ExecutionContext) (l : list Z)
    (w : World) :
  reflector_get context = Some l ->
  effectiveRoleLevel context w = None ->
  fst (canActivate context w) = Throw AuthenticationError.
Proof.
  intros Hl He. unfold effectiveRoleLevel in He.
  destruct (cacheMiss context w) eqn:Hmiss; [|discriminate].
  destruct (authoritative context w) as [a|] eqn:Hrec; [discriminate|].
  rewrite (GuardFacts.run_miss_absent _ _ _ Hl Hmiss Hrec). reflexivity.
Qed.

Lemma verdict_allows (level minRoleLevel : Js.jsnum) :
  verdict level minRoleLevel = Return true
  <-> Js.lt level minRoleLevel = false.
Proof.
  unfold verdict. destruct (Js.lt level minRoleLevel); split;
    congruence || discriminate.
Qed.

(** [x < y] is downward closed in [y] over the integers... *)
Lemma lt_of_Z_r_mono (e : Js.jsnum) (m m' : Z) :
  m' <= m -> Js.lt e (Js.of_Z m) = false -> Js.lt e (Js.of_Z m') = false.
Proof.
  intros Hle. destruct e as [| | |q]; cbn; try congruence.
  unfold Js.Qltb. cbn [Qnum Qden inject_Z].
  rewrite !Z.ltb_ge. intros H. nia.
Qed.

(** ... and upward closed in [x]. *)
Lemma lt_of_Z_l_mono (r r' : Z) (y : Js.jsnum) :
  r <= r' -> Js.lt (Js.of_Z r) y = false -> Js.lt (Js.of_Z r') y = false.
Proof.
  intros Hle. destruct y as [| | |q]; cbn; try congruence.
  unfold Js.Qltb. cbn [Qnum Qden inject_Z].
  rewrite !Z.ltb_ge. intros H. nia.
Qed.

Lemma lt_PosInfinity_false (e y : Js.jsnum) :
  Js.lt e Js.PosInfinity = false -> Js.lt e y = false.
Proof. destruct e, y; cbn; congruence. Qed.

Lemma Math_min_incl (l l' : list Z) (e : Js.jsnum) :
  incl l l' ->
  Js.lt e (Js.Math_min (map Js.of_Z l)) = false ->
  Js.lt e (Js.Math_min (map Js.of_Z l')) = false.
Proof.
  intros Hincl. destruct l as [|x l].
  - rewrite JsFacts.Math_min_empty. apply lt_PosInfinity_false.
  - destruct l' as [|x' l']; [destruct (Hincl x (or_introl eq_refl))|].
    pose proof (JsFacts.fold_min_is_minimum l x) as [Hin _].
    pose proof (JsFacts.fold_min_is_minimum l' x') as [_ Hle'].
    rewrite !JsFacts.Math_min_of_Z_cons.
    apply lt_of_Z_r_mono. apply Hle'. apply Hincl. exact Hin.
Qed.

Lemma Math_min_same_elements (l l' : list Z) :
  (forall x, In x l <-> In x l') ->
  Js.Math_min (map Js.of_Z l) = Js.Math_min (map Js.of_Z l').
Proof.
  intros Hsame. destruct l as [|x l].
  - destruct l' as [|x' l']; [reflexivity|].
    destruct (proj2 (Hsame x') (or_introl eq_refl)).
  - pose proof (JsFacts.fold_min_is_minimum l x) as [Hin Hle].
    rewrite JsFacts.Math_min_of_Z_cons. symmetry.
    apply JsFacts.Math_min_is_minimum. split.
    + apply Hsame. exact Hin.
    + intros y Hy. apply Hle. apply Hsame. exact Hy.
Qed.

End GuardRuns.

(** *** Repeating a call *)

Lemma populated_key_hits (context : ExecutionContext) (w0 : World)
    (m : gmap string string) (r : Z) :
  cached (with_redis (<[requestKey context := Js.NumberToString r]> m) w0)
         (requestKey context)
  = JString (Js.NumberToString r)
  /\ cacheMiss context
       (with_redis (<[requestKey context := Js.NumberToString r]> m) w0)
     = false.
Proof.
  assert (Hc : cached (with_redis
                         (<[requestKey context := Js.NumberToString r]> m) w0)
                      (requestKey context)
               = JString (Js.NumberToString r)).
  { unfold cached, with_redis. cbn [redis].
    rewrite lookup_insert_eq. reflexivity. }
  split; [exact Hc|]. unfold cacheMiss. rewrite Hc.
  pose proof (JsFacts.NumberToString_nonempty r) as Hne.
  destruct (Js.NumberToString r); [congruence | reflexivity].
Qed.

(** Calling the guard a second time, in the world the first call left,
    returns the decision of the first call and leaves the cache the first
    call left: allow stays allow, each failure stays the same failure. *)
Theorem canActivate_twice_same_decision_and_cache
    (context : ExecutionContext) (w : World) :
  fst (canActivate context (snd (canActivate context w)))
  = fst (canActivate context w)
  /\ redis (snd (canActivate context (snd (canActivate context w))))
     = redis (snd (canActivate context w)).
Proof.
  destruct (reflector_get context) as [l|] eqn:Hl.
  - destruct (cacheMiss context w) eqn:Hmiss.
    + destruct (authoritative context w) as [a|] eqn:Hrec.
      * rewrite (GuardFacts.run_miss_found _ _ _ _ Hl Hmiss Hrec).
        cbn [fst snd].
        destruct (populated_key_hits context
                    (record [RedisGet (requestKey context);
                             ConsoleLog (cached w (requestKey context));
                             PrismaFindUnique
                               (user_id (request_user context))
                               (auth_code (request_user context));
                             RedisSet (requestKey context)
                               (Js.NumberToString (Prisma.roleLevel a))] w)
                    (redis w) (Prisma.roleLevel a)) as [Hc Hhit].
        rewrite (GuardFacts.run_hit _ _ _ Hl Hhit), Hc. cbn [fst snd Number].
        rewrite JsFacts.StringToNumber_NumberToString.
        split; reflexivity.
      * rewrite (GuardFacts.run_miss_absent _ _ _ Hl Hmiss Hrec).
        cbn [fst snd].
        rewrite (GuardFacts.run_miss_absent context l (record _ w)
                   Hl Hmiss Hrec).
        split; reflexivity.
    + rewrite (GuardFacts.run_hit _ _ _ Hl Hmiss). cbn [fst snd].
      rewrite (GuardFacts.run_hit context l (record _ w) Hl Hmiss).
      split; reflexivity.
  - rewrite !(GuardFacts.run_no_roles _ _ Hl). split; reflexivity.
Qed.

(** *** What a call does to the cache *)

(** A call leaves every cache entry other than the one under the key of its
    own request as it was. *)
Theorem canActivate_keeps_other_cache_entries
    (context : ExecutionContext) (w : World) (key : string) :
  key <> requestKey context ->
  redis (snd (canActivate context w)) !! key = redis w !! key.
Proof.
  intros Hne.
  destruct (reflector_get context) as [l|] eqn:Hl.
  - destruct (cacheMiss context w) eqn:Hmiss.
    + destruct (authoritative context w) as [a|] eqn:Hrec.
      * rewrite (GuardFacts.run_miss_found _ _ _ _ Hl Hmiss Hrec).
        cbn [snd with_redis redis]. apply lookup_insert_ne. congruence.
      * rewrite (GuardFacts.run_miss_absent _ _ _ Hl Hmiss Hrec). reflexivity.
    + rewrite (GuardFacts.run_hit _ _ _ Hl Hmiss). reflexivity.
  - rewrite (GuardFacts.run_no_roles _ _ Hl). reflexivity.
Qed.

Lemma canActivate_keeps_other_cache_entries_witness :
  "role_u2_c2" <> requestKey (gated [1])
  /\ redis (snd (canActivate (gated [1])
                   (warm "role_u2_c2" "7" [alice_row 3]))) !! "role_u2_c2"
     = redis (warm "role_u2_c2" "7" [alice_row 3]) !! "role_u2_c2".
Proof.
  assert (Hne : "role_u2_c2" <> requestKey (gated [1])) by discriminate.
  split; [exact Hne|].
  exact (canActivate_keeps_other_cache_entries
           (gated [1]) (warm "role_u2_c2" "7" [alice_row 3]) "role_u2_c2" Hne).
Defined.

(** On a miss with an authoritative record the level is cached BEFORE it is
    compared: whether the call allows or denies, the cache then holds the
    decimal text of the level under the key of the request, that text is a
    hit, and [Number] reads the level back from it. *)
Theorem canActivate_populates_cache_before_deciding
    (context : ExecutionContext) (l : list Z) (w : World)
    (a : Prisma.AuthCode) :
  reflector_get context = Some l ->
  cacheMiss context w = true ->
  authoritative context w = Some a ->
  redis (snd (canActivate context w)) !! requestKey context
  = Some (Js.NumberToString (Prisma.roleLevel a))
  /\ cacheMiss context (snd (canActivate context w)) = false
  /\ Number (cached (snd (canActivate context w)) (requestKey context))
     = Js.of_Z (Prisma.roleLevel a).
Proof.
  intros Hl Hmiss Hrec.
  rewrite (GuardFacts.run_miss_found _ _ _ _ Hl Hmiss Hrec). cbn [snd].
  match goal with
  | |- context [with_redis _ ?w0] =>
      destruct (populated_key_hits context w0 (redis w) (Prisma.roleLevel a))
        as [Hc Hhit]
  end.
  split; [|split; [exact Hhit|]].
  - cbn [with_redis redis]. apply lookup_insert_eq.
  - rewrite Hc. cbn [Number]. apply JsFacts.StringToNumber_NumberToString.
Qed.

(** The theorem at work on a call that is denied: level -3 against the
    minimum 1. *)
Lemma canActivate_populates_cache_before_deciding_witness :
  reflector_get (gated [1]) = Some [1]
  /\ cacheMiss (gated [1]) (cold [alice_row (-3)]) = true
  /\ authoritative (gated [1]) (cold [alice_row (-3)]) = Some (alice_row (-3))
  /\ fst (canActivate (gated [1]) (cold [alice_row (-3)]))
     = Throw AuthorizationError
  /\ redis (snd (canActivate (gated [1]) (cold [alice_row (-3)])))
       !! requestKey (gated [1])
     = Some (Js.NumberToString (Prisma.roleLevel (alice_row (-3)))).
Proof.
  split; [reflexivity|]. split; [reflexivity|]. split; [reflexivity|].
  split; [reflexivity|].
  exact (proj1 (canActivate_populates_cache_before_deciding
                  (gated [1]) [1] (cold [alice_row (-3)]) (alice_row (-3))
                  eq_refl eq_refl eq_refl)).
Defined.

(** A call adds to the events at most one call on the authoritative store
    and at most one write to the cache, and a write only together with a
    store call: the cache is never written from anything but a record just
    read. *)
Theorem canActivate_call_bounds (context : ExecutionContext) (w : World) :
  exists es : list Event,
    events (snd (canActivate context w)) = events w ++ es
    /\ (cache_writes es <= store_calls es)%nat
    /\ (store_calls es <= 1)%nat.
Proof.
  destruct (reflector_get context) as [l|] eqn:Hl.
  - destruct (cacheMiss context w) eqn:Hmiss.
    + destruct (authoritative context w) as [a|] eqn:Hrec.
      * rewrite (GuardFacts.run_miss_found _ _ _ _ Hl Hmiss Hrec).
        eexists. split; [reflexivity|]. cbn. lia.
      * rewrite (GuardFacts.run_miss_absent _ _ _ Hl Hmiss Hrec).
        eexists. split; [reflexivity|]. cbn. lia.
    + rewrite (GuardFacts.run_hit _ _ _ Hl Hmiss).
      eexists. split; [reflexivity|]. cbn. lia.
  - rewrite (GuardFacts.run_no_roles _ _ Hl). exists [].
    split; [symmetry; apply app_nil_r|]. cbn. lia.
Qed.

(** An EMPTY cached text is a miss: the store is called, and the decision is
    the decision of the world without the entry. *)
Theorem canActivate_empty_cached_text_is_a_miss
    (context : ExecutionContext) (l : list Z) (w : World) :
  reflector_get context = Some l ->
  redis w !! requestKey context = Some EmptyString ->
  fst (canActivate context w)
  = fst (canActivate context (evict (requestKey context) w))
  /\ store_calls (events (snd (canActivate context w)))
     = S (store_calls (events w)).
Proof.
  intros Hl Hs.
  assert (Hmiss : cacheMiss context w = true)
    by (unfold cacheMiss, cached; rewrite Hs; reflexivity).
  assert (Hmiss' : cacheMiss context (evict (requestKey context) w) = true).
  { unfold cacheMiss, cached, evict, with_redis. cbn [redis].
    rewrite lookup_delete_eq. reflexivity. }
  destruct (authoritative context w) as [a|] eqn:Hrec.
  - rewrite (GuardFacts.run_miss_found _ _ _ _ Hl Hmiss Hrec).
    rewrite (GuardFacts.run_miss_found context l (evict _ w) a Hl Hmiss' Hrec).
    split; [reflexivity|]. cbn [snd with_redis record events].
    rewrite store_calls_app. cbn. lia.
  - rewrite (GuardFacts.run_miss_absent _ _ _ Hl Hmiss Hrec).
    rewrite (GuardFacts.run_miss_absent context l (evict _ w) Hl Hmiss' Hrec).
    split; [reflexivity|]. cbn [snd record events].
    rewrite store_calls_app. cbn. lia.
Qed.

Lemma canActivate_empty_cached_text_is_a_miss_witness :
  reflector_get (gated [1]) = Some [1]
  /\ redis (warm "role_u1_c1" "" [alice_row 4]) !! requestKey (gated [1])
     = Some EmptyString
  /\ fst (canActivate (gated [1]) (warm "role_u1_c1" "" [alice_row 4]))
     = fst (canActivate (gated [1])
              (evict (requestKey (gated [1]))
                     (warm "role_u1_c1" "" [alice_row 4]))).
Proof.
  split; [reflexivity|]. split; [reflexivity|].
  exact (proj1 (canActivate_empty_cached_text_is_a_miss
                  (gated [1]) [1] (warm "role_u1_c1" "" [alice_row 4])
                  eq_refl eq_refl)).
Defined.

(** *** Who is let in *)

(** Higher levels are stronger: if the guard allows an integer effective
    level, it allows every integer level above it, for the same handler. *)
Theorem canActivate_allows_higher_levels
    (context : ExecutionContext) (l : list Z) (w w' : World) (r r' : Z) :
  reflector_get context = Some l ->
  effectiveRoleLevel context w = Some (Js.of_Z r) ->
  effectiveRoleLevel context w' = Some (Js.of_Z r') ->
  r <= r' ->
  fst (canActivate context w) = Return true ->
  fst (canActivate context w') = Return true.
Proof.
  intros Hl He He' Hle.
  rewrite (GuardRuns.outcome_of_level _ _ _ _ Hl He),
    (GuardRuns.outcome_of_level _ _ _ _ Hl He'), !GuardRuns.verdict_allows.
  apply GuardRuns.lt_of_Z_l_mono. exact Hle.
Qed.

Lemma canActivate_allows_higher_levels_witness :
  reflector_get (gated [2; 4]) = Some [2; 4]
  /\ effectiveRoleLevel (gated [2; 4]) (cold [alice_row 2])
     = Some (Js.of_Z 2)
  /\ effectiveRoleLevel (gated [2; 4]) (warm "role_u1_c1" "9" [])
     = Some (Js.of_Z 9)
  /\ 2 <= 9
  /\ fst (canActivate (gated [2; 4]) (cold [alice_row 2])) = Return true
  /\ fst (canActivate (gated [2; 4]) (warm "role_u1_c1" "9" []))
     = Return true.
Proof.
  assert (Hle : 2 <= 9) by lia.
  split; [reflexivity|]. split; [reflexivity|]. split; [reflexivity|].
  split; [exact Hle|]. split; [reflexivity|].
  exact (canActivate_allows_higher_levels
           (gated [2; 4]) [2; 4] (cold [alice_row 2])
           (warm "role_u1_c1" "9" []) 2 9 eq_refl eq_refl eq_refl Hle eq_refl).
Defined.

Lemma with_roles_level (l : option (list Z)) (context : ExecutionContext)
    (w : World) :
  effectiveRoleLevel (with_roles l context) w = effectiveRoleLevel context w.
Proof. reflexivity. Qed.

(** Declaring more levels on a handler never locks anybody out: when every
    level of [l] is among those of [l'], a call allowed under [l] is allowed
    under [l'], in the same world. *)
Theorem canActivate_more_levels_allow_more
    (context : ExecutionContext) (l l' : list Z) (w : World) :
  incl l l' ->
  fst (canActivate (with_roles (Some l) context) w) = Return true ->
  fst (canActivate (with_roles (Some l') context) w) = Return true.
Proof.
  intros Hincl.
  destruct (effectiveRoleLevel context w) as [e|] eqn:He.
  - rewrite (GuardRuns.outcome_of_level (with_roles (Some l) context) l w e
               eq_refl He),
      (GuardRuns.outcome_of_level (with_roles (Some l') context) l' w e
         eq_refl He), !GuardRuns.verdict_allows.
    apply GuardRuns.Math_min_incl. exact Hincl.
  - rewrite (GuardRuns.outcome_without_level
               (with_roles (Some l) context) l w eq_refl He).
    discriminate.
Qed.

Lemma canActivate_more_levels_allow_more_witness :
  incl [3] [3; 1]
  /\ fst (canActivate (with_roles (Some [3]) (gated []))
            (cold [alice_row 3])) = Return true
  /\ fst (canActivate (with_roles (Some [3; 1]) (gated []))
            (cold [alice_row 3])) = Return true.
Proof.
  assert (Hincl : incl [3] [3; 1]).
  { intros x [<-|[]]. left. reflexivity. }
  split; [exact Hincl|]. split; [reflexivity|].
  exact (canActivate_more_levels_allow_more
           (gated []) [3] [3; 1] (cold [alice_row 3]) Hincl eq_refl).
Defined.

(** The declared levels are a set to the guard: two collections with the
    same elements, in any order and with any repetitions, give the same run
    (decision, cache and events). *)
Theorem canActivate_levels_are_a_set
    (context : ExecutionContext) (l l' : list Z) (w : World) :
  (forall x, In x l <-> In x l') ->
  canActivate (with_roles (Some l) context) w
  = canActivate (with_roles (Some l') context) w.
Proof.
  intros Hsame. unfold canActivate, with_roles.
  cbn [reflector_get handler_roles request_user].
  rewrite (GuardRuns.Math_min_same_elements l l' Hsame). reflexivity.
Qed.

Lemma canActivate_levels_are_a_set_witness :
  (forall x, In x [2; 1; 2] <-> In x [1; 2])
  /\ canActivate (with_roles (Some [2; 1; 2]) (gated []))
                 (cold [alice_row 1])
     = canActivate (with_roles (Some [1; 2]) (gated []))
                   (cold [alice_row 1]).
Proof.
  assert (Hsame : forall x, In x [2; 1; 2] <-> In x [1; 2]).
  { intros x. cbn. intuition. }
  split; [exact Hsame|].
  exact (canActivate_levels_are_a_set
           (gated []) [2; 1; 2] [1; 2] (cold [alice_row 1]) Hsame).
Defined.

(** An empty [Roles] array shuts the handler: its minimum is +Infinity, and
    every caller whose effective level is an integer a number holds exactly
    is denied with AuthorizationError. *)
Theorem canActivate_empty_levels_deny_every_integer_level
    (context : ExecutionContext) (w : World) (e : Js.jsnum) (r : Z) :
  reflector_get context = Some [] ->
  effectiveRoleLevel context w = Some e ->
  holds_integer e r ->
  safe_integer r ->
  fst (canActivate context w) = Throw AuthorizationError.
Proof.
  intros Hl He Hr _. rewrite (GuardRuns.outcome_of_level _ _ _ _ Hl He).
  destruct e as [| | |q]; cbn [holds_integer] in Hr; try contradiction.
  reflexivity.
Qed.

Lemma canActivate_empty_levels_deny_every_integer_level_witness :
  reflector_get (gated []) = Some []
  /\ effectiveRoleLevel (gated []) (warm "role_u1_c1" "1000000" [])
     = Some (Js.of_Z 1000000)
  /\ holds_integer (Js.of_Z 1000000) 1000000
  /\ safe_integer 1000000
  /\ fst (canActivate (gated []) (warm "role_u1_c1" "1000000" []))
     = Throw AuthorizationError.
Proof.
  assert (Hr : holds_integer (Js.of_Z 1000000) 1000000) by (cbn; reflexivity).
  assert (Hsafe : safe_integer 1000000) by (unfold safe_integer; cbn; lia).
  split; [reflexivity|]. split; [reflexivity|]. split; [exact Hr|].
  split; [exact Hsafe|].
  exact (canActivate_empty_levels_deny_every_integer_level
           (gated []) (warm "role_u1_c1" "1000000" []) (Js.of_Z 1000000)
           1000000 eq_refl eq_refl Hr Hsafe).
Defined.

(** The guard answers "Invalid authentication" in one situation only: the
    handler has role metadata, the lookup of the request misses, and the
    store has no record of the pair.  Any non-empty text under the key of
    the request spares the caller that failure, record or no record. *)
Theorem canActivate_fails_authentication_iff
    (context : ExecutionContext) (w : World) :
  fst (canActivate context w) = Throw AuthenticationError
  <-> (exists l, reflector_get context = Some l)
      /\ cacheMiss context w = true
      /\ authoritative context w = None.
Proof.
  destruct (reflector_get context) as [l|] eqn:Hl.
  - destruct (cacheMiss context w) eqn:Hmiss.
    + destruct (authoritative context w) as [a|] eqn:Hrec.
      * rewrite (GuardFacts.run_miss_found _ _ _ _ Hl Hmiss Hrec). cbn [fst].
        split.
        -- intros H.
           destruct (GuardFacts.verdict_not_AuthenticationError _ _ H).
        -- intros (_ & _ & H). discriminate H.
      * rewrite (GuardFacts.run_miss_absent _ _ _ Hl Hmiss Hrec). cbn [fst].
        split; [|reflexivity]. intros _. repeat split. exists l. reflexivity.
    + rewrite (GuardFacts.run_hit _ _ _ Hl Hmiss). cbn [fst]. split.
      * intros H. destruct (GuardFacts.verdict_not_AuthenticationError _ _ H).
      * intros (_ & H & _). discriminate H.
  - rewrite (GuardFacts.run_no_roles _ _ Hl). cbn [fst]. split.
    + discriminate.
    + intros ([l H] & _). discriminate H.
Qed.

(** ** The comment service: reading pages *)

Lemma eqb_empty_false (s : string) :
  s <> EmptyString -> String.eqb s "" = false.
Proof. intros H. apply String.eqb_neq. exact H. Qed.

Module PostCommentFacts.
Import PostCommentService.

Lemma firstn_plus {A} (l : list A) (a b : nat) :
  firstn (a + b) l = firstn a l ++ firstn b (skipn a l).
Proof.
  revert l. induction a as [|a IH]; intros l; [reflexivity|].
  destruct l as [|x l]; cbn [Nat.add firstn skipn app].
  - destruct b; reflexivity.
  - rewrite IH. reflexivity.
Qed.

(** The first [k] windows of width [n] make up the first [k * n] elements. *)
Lemma windows_concat {A} (n : nat) (l : list A) (k : nat) :
  concat (map (fun i => firstn n (skipn (i * n) l)) (seq 0 k))
  = firstn (k * n) l.
Proof.
  induction k as [|k IH]; [reflexivity|].
  rewrite seq_S, map_app, concat_app, IH. cbn [Nat.add map concat].
  rewrite app_nil_r. change (S k * n)%nat with (n + k * n)%nat.
  rewrite (Nat.add_comm n (k * n)). symmetry. apply firstn_plus.
Qed.

Lemma window_nil_iff {A} (n k : nat) (l : list A) :
  (0 < n)%nat -> firstn n (skipn k l) = [] <-> (length l <= k)%nat.
Proof.
  intros Hn. split.
  - intros H. apply (f_equal (@length A)) in H.
    rewrite List.length_firstn, List.length_skipn in H. cbn in H. lia.
  - intros H. rewrite List.skipn_all2 by exact H. apply firstn_nil.
Qed.



Lemma or_null_where (replyTo : OptionalText) :
  match replyTo with
  | text (String c s) => Some (String c s)
  | _ => None
  end = or_null replyTo.
Proof. reflexivity. Qed.

(** A gated page: what the call answers for a post that exists, a page from
    1 on and a limit from 0 on. *)
Lemma getPostComments_window (db : Database) (now : Z) (postId : string)
    (page limit : Z) (replyTo : OptionalText) (p : Post.t) :
  postId <> EmptyString ->
  post_findUnique postId db = Some p ->
  1 <= page -> 0 <= limit ->
  getPostComments db now postId (Some page) (Some limit) replyTo
  = Responded
      {| message := "Get comments successfully";
         data :=
           {| currentPage := page;
              pageSize := limit;
              totalPage :=
                Js.Math_ceil
                  (Js.divide
                     (Js.of_Z (Z.of_nat (length (selected db postId replyTo))))
                     (Js.of_Z limit));
              totalCount := Z.of_nat (length (selected db postId replyTo));
              hasNextPage :=
                page * limit <? Z.of_nat (length (selected db postId replyTo));
              hasPreviousPage :=
                negb (Z.of_nat (length (selected db postId replyTo)) =? 0)
                && (1 <? page);
              items := firstn (Z.to_nat limit)
                              (skipn (Z.to_nat ((page - 1) * limit))
                                     (selected db postId replyTo)) |};
         statusCode := 200;
         date := now |}.
Proof.
  intros Hid Hpost Hpage Hlimit. unfold getPostComments.
  rewrite (eqb_empty_false _ Hid), Hpost, or_null_where.
  unfold postComment_findMany, postComment_count.
  fold (selected db postId replyTo).
  replace ((page - 1) * limit <? 0) with false
    by (symmetry; apply Z.ltb_ge; nia).
  replace (0 <=? limit) with true by (symmetry; apply Z.leb_le; lia).
  reflexivity.
Qed.

Lemma pageItems_window (db : Database) (now : Z) (postId : string)
    (page limit : Z) (replyTo : OptionalText) (p : Post.t) :
  postId <> EmptyString ->
  post_findUnique postId db = Some p ->
  1 <= page -> 0 <= limit ->
  pageItems db now postId (Some limit) replyTo page
  = firstn (Z.to_nat limit)
           (skipn (Z.to_nat ((page - 1) * limit)) (selected db postId replyTo)).
Proof.
  intros Hid Hpost Hpage Hlimit. unfold pageItems.
  rewrite (getPostComments_window _ _ _ _ _ _ _ Hid Hpost Hpage Hlimit).
  reflexivity.
Qed.

(** [Math.ceil(a / b)] on integers, for a positive divisor. *)
Lemma Math_ceil_divide (a b : Z) :
  0 < b ->
  Js.Math_ceil (Js.divide (Js.of_Z a) (Js.of_Z b)) = Js.of_Z ((a + b - 1) / b).
Proof.
  intros Hb. destruct b as [|pb|pb]; try lia.
  change (Js.Math_ceil (Js.divide (Js.of_Z a) (Js.of_Z (Z.pos pb))))
    with (Js.of_Z (- ((- (a * 1)) / Z.pos (1 * pb)))).
  f_equal. rewrite Z.mul_1_r, Pos.mul_1_l.
  pose proof (Z.div_mod (- a) (Z.pos pb) ltac:(lia)) as H1.
  pose proof (Z.mod_pos_bound (- a) (Z.pos pb) ltac:(lia)) as H2.
  apply (Z.div_unique _ _ _ (Z.pos pb - 1 - (- a) mod Z.pos pb)); lia.
Qed.

End PostCommentFacts.

(** A page has a successor with items exactly when it says so: for a post
    that exists, a page from 1 on and a limit from 1 on, [hasNextPage] is
    true if and only if the call for the next page returns at least one
    item. *)
Theorem getPostComments_hasNextPage_iff_next_page_has_items
    (db : PostCommentService.Database) (now : Z) (postId : string)
    (page limit : Z) (replyTo : PostCommentService.OptionalText)
    (p : PostCommentService.Post.t) :
  postId <> EmptyString ->
  PostCommentService.post_findUnique postId db = Some p ->
  1 <= page -> 1 <= limit ->
  exists r,
    PostCommentService.getPostComments db now postId (Some page) (Some limit)
                                       replyTo
    = Responded r
    /\ (PostCommentService.hasNextPage (data r) = true
        <-> PostCommentService.pageItems db now postId (Some limit) replyTo
                                         (page + 1) <> []).
Proof.
  intros Hid Hpost Hpage Hlimit.
  eexists. split.
  - apply (PostCommentFacts.getPostComments_window _ _ _ _ _ _ _ Hid Hpost);
      lia.
  - cbn [data PostCommentService.hasNextPage].
    rewrite (PostCommentFacts.pageItems_window _ _ _ _ _ _ _ Hid Hpost)
      by lia.
    rewrite Z.ltb_lt.
    rewrite (PostCommentFacts.window_nil_iff (Z.to_nat limit)) by lia.
    replace (page + 1 - 1) with page by lia. split; intros H; nia.
Qed.

Lemma getPostComments_hasNextPage_iff_next_page_has_items_witness :
  "p1" <> EmptyString
  /\ PostCommentService.post_findUnique "p1" forum
     = Some {| PostCommentService.Post.id := "p1";
               PostCommentService.Post.commentCount := 5 |}
  /\ 1 <= 2 /\ 1 <= 2
  /\ exists r,
       PostCommentService.getPostComments forum 0 "p1" (Some 2) (Some 2)
                                          PostCommentService.undefined
       = Responded r
       /\ (PostCommentService.hasNextPage (data r) = true
           <-> PostCommentService.pageItems forum 0 "p1" (Some 2)
                 PostCommentService.undefined (2 + 1) <> []).
Proof.
  assert (Hid : "p1" <> EmptyString) by discriminate.
  assert (H1 : 1 <= 2) by lia.
  split; [exact Hid|]. split; [reflexivity|]. split; [exact H1|].
  split; [exact H1|].
  exact (getPostComments_hasNextPage_iff_next_page_has_items
           forum 0 "p1" 2 2 PostCommentService.undefined _ Hid eq_refl H1 H1).
Defined.

(** For a positive limit, [totalPage] is the number of the last page that
    has items, the ceiling of [totalCount / limit], and [hasNextPage] says
    whether the current page is before it. *)
Theorem getPostComments_totalPage_is_last_page
    (db : PostCommentService.Database) (now : Z) (postId : string)
    (page limit : Z) (replyTo : PostCommentService.OptionalText)
    (p : PostCommentService.Post.t) :
  postId <> EmptyString ->
  PostCommentService.post_findUnique postId db = Some p ->
  1 <= page -> 1 <= limit ->
  exists r,
    PostCommentService.getPostComments db now postId (Some page) (Some limit)
                                       replyTo
    = Responded r
    /\ PostCommentService.totalPage (data r)
       = Js.of_Z (lastPage db postId limit replyTo)
    /\ (lastPage db postId limit replyTo - 1) * limit
       < PostCommentService.totalCount (data r)
       <= lastPage db postId limit replyTo * limit
    /\ (PostCommentService.hasNextPage (data r) = true
        <-> page < lastPage db postId limit replyTo).
Proof.
  intros Hid Hpost Hpage Hlimit.
  eexists. split.
  - apply (PostCommentFacts.getPostComments_window _ _ _ _ _ _ _ Hid Hpost);
      lia.
  - cbn [data PostCommentService.totalPage PostCommentService.totalCount
         PostCommentService.hasNextPage].
    unfold lastPage.
    set (n := Z.of_nat
                (length (PostCommentService.selected db postId replyTo))).
    pose proof (Z.div_mod (n + limit - 1) limit ltac:(lia)) as Hdm.
    pose proof (Z.mod_pos_bound (n + limit - 1) limit ltac:(lia)) as Hmod.
    split; [apply PostCommentFacts.Math_ceil_divide; lia|].
    split; [nia|]. rewrite Z.ltb_lt. split; intros H; nia.
Qed.

Lemma getPostComments_totalPage_is_last_page_witness :
  "p1" <> EmptyString
  /\ PostCommentService.post_findUnique "p1" forum
     = Some {| PostCommentService.Post.id := "p1";
               PostCommentService.Post.commentCount := 5 |}
  /\ 1 <= 1 /\ 1 <= 2
  /\ lastPage forum "p1" 2 PostCommentService.undefined = 3
  /\ exists r,
       PostCommentService.getPostComments forum 0 "p1" (Some 1) (Some 2)
                                          PostCommentService.undefined
       = Responded r
       /\ PostCommentService.totalPage (data r)
          = Js.of_Z (lastPage forum "p1" 2 PostCommentService.undefined).
Proof.
  assert (Hid : "p1" <> EmptyString) by discriminate.
  assert (H1 : 1 <= 1) by lia.
  assert (H2 : 1 <= 2) by lia.
  split; [exact Hid|]. split; [reflexivity|]. split; [exact H1|].
  split; [exact H2|]. split; [reflexivity|].
  destruct (getPostComments_totalPage_is_last_page
              forum 0 "p1" 1 2 PostCommentService.undefined _
              Hid eq_refl H1 H2) as (r & Hr & Ht & _).
  exists r. split; [exact Hr | exact Ht].
Defined.

(** Reading the pages 1 to [totalPage] one after the other, with the same
    positive limit, returns every selected comment exactly once, in the
    order of the database: the pages partition the selection. *)
Theorem getPostComments_pages_partition_the_selection
    (db : PostCommentService.Database) (now : Z) (postId : string)
    (limit : Z) (replyTo : PostCommentService.OptionalText)
    (p : PostCommentService.Post.t) :
  postId <> EmptyString ->
  PostCommentService.post_findUnique postId db = Some p ->
  1 <= limit ->
  concat (map (fun page =>
                 PostCommentService.pageItems db now postId (Some limit)
                                              replyTo (Z.of_nat page))
              (seq 1 (Z.to_nat (lastPage db postId limit replyTo))))
  = PostCommentService.selected db postId replyTo.
Proof.
  intros Hid Hpost Hlimit.
  set (sel := PostCommentService.selected db postId replyTo).
  set (k := Z.to_nat (lastPage db postId limit replyTo)).
  rewrite <- seq_shift, map_map.
  rewrite (map_ext_in _
             (fun i => firstn (Z.to_nat limit)
                              (skipn (i * Z.to_nat limit) sel))).
  - rewrite PostCommentFacts.windows_concat. apply firstn_all2.
    subst k sel. unfold lastPage.
    set (n := Z.of_nat
                (length (PostCommentService.selected db postId replyTo))).
    pose proof (Z.div_mod (n + limit - 1) limit ltac:(lia)) as Hdm.
    pose proof (Z.mod_pos_bound (n + limit - 1) limit ltac:(lia)) as Hmod.
    assert (Hn : 0 <= n) by (subst n; lia).
    assert (Hq : 0 <= (n + limit - 1) / limit)
      by (apply Z.div_pos; lia).
    assert (n <= (n + limit - 1) / limit * limit) by nia.
    subst n. nia.
  - intros i _.
    rewrite (PostCommentFacts.pageItems_window _ _ _ _ _ _ _ Hid Hpost)
      by lia.
    f_equal. f_equal. nia.
Qed.

Lemma getPostComments_pages_partition_the_selection_witness :
  "p1" <> EmptyString
  /\ PostCommentService.post_findUnique "p1" forum
     = Some {| PostCommentService.Post.id := "p1";
               PostCommentService.Post.commentCount := 5 |}
  /\ 1 <= 2
  /\ concat (map (fun page =>
                    PostCommentService.pageItems forum 0 "p1" (Some 2)
                      PostCommentService.undefined (Z.of_nat page))
                 (seq 1 (Z.to_nat
                           (lastPage forum "p1" 2
                                     PostCommentService.undefined))))
     = PostCommentService.selected forum "p1" PostCommentService.undefined.
Proof.
  assert (Hid : "p1" <> EmptyString) by discriminate.
  assert (H2 : 1 <= 2) by lia.
  split; [exact Hid|]. split; [reflexivity|]. split; [exact H2|].
  exact (getPostComments_pages_partition_the_selection
           forum 0 "p1" 2 PostCommentService.undefined _ Hid eq_refl H2).
Defined.

(** The number of items of a page: [limit] of them, or what is left of the
    selection after the pages before, or none. *)
Theorem getPostComments_items_count
    (db : PostCommentService.Database) (now : Z) (postId : string)
    (page limit : Z) (replyTo : PostCommentService.OptionalText)
    (p : PostCommentService.Post.t) :
  postId <> EmptyString ->
  PostCommentService.post_findUnique postId db = Some p ->
  1 <= page -> 0 <= limit ->
  exists r,
    PostCommentService.getPostComments db now postId (Some page) (Some limit)
                                       replyTo
    = Responded r
    /\ Z.of_nat (length (PostCommentService.items (data r)))
       = Z.min limit
               (Z.max 0 (PostCommentService.totalCount (data r)
                         - (page - 1) * limit)).
Proof.
  intros Hid Hpost Hpage Hlimit.
  eexists. split.
  - apply (PostCommentFacts.getPostComments_window _ _ _ _ _ _ _ Hid Hpost);
      lia.
  - cbn [data PostCommentService.items PostCommentService.totalCount].
    rewrite List.length_firstn, List.length_skipn. nia.
Qed.

Lemma getPostComments_items_count_witness :
  "p1" <> EmptyString
  /\ PostCommentService.post_findUnique "p1" forum
     = Some {| PostCommentService.Post.id := "p1";
               PostCommentService.Post.commentCount := 5 |}
  /\ 1 <= 3 /\ 0 <= 2
  /\ exists r,
       PostCommentService.getPostComments forum 0 "p1" (Some 3) (Some 2)
                                          PostCommentService.undefined
       = Responded r
       /\ Z.of_nat (length (PostCommentService.items (data r)))
          = Z.min 2 (Z.max 0 (PostCommentService.totalCount (data r)
                              - (3 - 1) * 2)).
Proof.
  assert (Hid : "p1" <> EmptyString) by discriminate.
  assert (H3 : 1 <= 3) by lia.
  assert (H2 : 0 <= 2) by lia.
  split; [exact Hid|]. split; [reflexivity|]. split; [exact H3|].
  split; [exact H2|].
  exact (getPostComments_items_count
           forum 0 "p1" 3 2 PostCommentService.undefined _ Hid eq_refl H3 H2).
Defined.

(** With a limit of 0 the call still answers: no items on any page,
    [hasNextPage] true for ever as soon as one comment is selected, and a
    [totalPage] that is not a number of pages: +Infinity, or NaN when
    nothing is selected. *)
Theorem getPostComments_limit_zero
    (db : PostCommentService.Database) (now : Z) (postId : string)
    (page : Z) (replyTo : PostCommentService.OptionalText)
    (p : PostCommentService.Post.t) :
  postId <> EmptyString ->
  PostCommentService.post_findUnique postId db = Some p ->
  1 <= page ->
  exists r,
    PostCommentService.getPostComments db now postId (Some page) (Some 0)
                                       replyTo
    = Responded r
    /\ PostCommentService.items (data r) = []
    /\ PostCommentService.hasNextPage (data r)
       = negb (PostCommentService.totalCount (data r) =? 0)
    /\ PostCommentService.totalPage (data r)
       = if PostCommentService.totalCount (data r) =? 0
         then Js.NaN else Js.PosInfinity.
Proof.
  intros Hid Hpost Hpage.
  eexists. split.
  - apply (PostCommentFacts.getPostComments_window _ _ _ _ _ _ _ Hid Hpost);
      lia.
  - cbn [data PostCommentService.items PostCommentService.totalCount
         PostCommentService.hasNextPage PostCommentService.totalPage].
    set (n := length (PostCommentService.selected db postId replyTo)).
    split; [reflexivity|]. rewrite Z.mul_0_r.
    destruct n as [|n]; split; reflexivity.
Qed.

Lemma getPostComments_limit_zero_witness :
  "p1" <> EmptyString
  /\ PostCommentService.post_findUnique "p1" forum
     = Some {| PostCommentService.Post.id := "p1";
               PostCommentService.Post.commentCount := 5 |}
  /\ 1 <= 1
  /\ exists r,
       PostCommentService.getPostComments forum 0 "p1" (Some 1) (Some 0)
                                          PostCommentService.undefined
       = Responded r
       /\ PostCommentService.items (data r) = []
       /\ PostCommentService.totalPage (data r) = Js.PosInfinity.
Proof.
  assert (Hid : "p1" <> EmptyString) by discriminate.
  assert (H1 : 1 <= 1) by lia.
  split; [exact Hid|]. split; [reflexivity|]. split; [exact H1|].
  destruct (getPostComments_limit_zero
              forum 0 "p1" 1 PostCommentService.undefined _ Hid eq_refl H1)
    as (r & Hr & Hi & _ & Ht).
  exists r. split; [exact Hr|]. split; [exact Hi|].
  rewrite Ht.
  replace (PostCommentService.totalCount (data r)) with 5; [reflexivity|].
  injection Hr as <-. reflexivity.
Defined.

(** A page of 0 or below is no page: with a positive limit the [skip] of the
    query is negative, the client rejects it, and the call ends in the
    [catch] block with that error instead of a response. *)
Theorem getPostComments_rejects_pages_below_one
    (db : PostCommentService.Database) (now : Z) (postId : string)
    (page limit : Z) (replyTo : PostCommentService.OptionalText)
    (p : PostCommentService.Post.t) :
  postId <> EmptyString ->
  PostCommentService.post_findUnique postId db = Some p ->
  page <= 0 -> 1 <= limit ->
  PostCommentService.getPostComments db now postId (Some page) (Some limit)
                                     replyTo
  = Handled (PrismaInvalidArgument "skip").
Proof.
  intros Hid Hpost Hpage Hlimit. unfold PostCommentService.getPostComments.
  rewrite (eqb_empty_false _ Hid), Hpost.
  unfold PostCommentService.postComment_findMany.
  replace ((page - 1) * limit <? 0) with true
    by (symmetry; apply Z.ltb_lt; nia).
  reflexivity.
Qed.

Lemma getPostComments_rejects_pages_below_one_witness :
  "p1" <> EmptyString
  /\ PostCommentService.post_findUnique "p1" forum
     = Some {| PostCommentService.Post.id := "p1";
               PostCommentService.Post.commentCount := 5 |}
  /\ 0 <= 0 /\ 1 <= 10
  /\ PostCommentService.getPostComments forum 0 "p1" (Some 0) None
                                        PostCommentService.undefined
     = Handled (PrismaInvalidArgument "skip").
Proof.
  assert (Hid : "p1" <> EmptyString) by discriminate.
  assert (H0 : 0 <= 0) by lia.
  assert (H1 : 1 <= 10) by lia.
  split; [exact Hid|]. split; [reflexivity|]. split; [exact H0|].
  split; [exact H1|].
  exact (getPostComments_rejects_pages_below_one
           forum 0 "p1" 0 10 PostCommentService.undefined _
           Hid eq_refl H0 H1).
Defined.



(** ** The comment service: creating and deleting *)

(** A comment cannot be created without a textual [replyToId]: when the
    field is [undefined] or [null], for a post that exists, the spread that
    ends the array of the transaction throws a [TypeError]; the call ends in
    the [catch] block and no transaction is sent.  A top-level comment needs
    the empty string. *)
Theorem createPostComment_without_replyToId_throws_TypeError
    (db : PostCommentService.Database) (now : Z) (authorId postId : string)
    (dto : PostCommentService.CreatePostCommentDto)
    (p : PostCommentService.Post.t) :
  postId <> EmptyString ->
  PostCommentService.post_findUnique postId db = Some p ->
  PostCommentService.dto_replyToId dto = PostCommentService.undefined
  \/ PostCommentService.dto_replyToId dto = PostCommentService.null ->
  PostCommentService.createPostComment db now authorId postId dto
  = PostCommentService.Caught TypeError.
Proof.
  intros Hid Hpost Hreply. unfold PostCommentService.createPostComment.
  rewrite (eqb_empty_false _ Hid), Hpost.
  destruct Hreply as [-> | ->]; reflexivity.
Qed.

Lemma createPostComment_without_replyToId_throws_TypeError_witness :
  "p1" <> EmptyString
  /\ PostCommentService.post_findUnique "p1" forum
     = Some {| PostCommentService.Post.id := "p1";
               PostCommentService.Post.commentCount := 5 |}
  /\ PostCommentService.createPostComment forum 0 "ann" "p1"
       {| PostCommentService.dto_content := "hello";
          PostCommentService.dto_replyToId := PostCommentService.undefined |}
     = PostCommentService.Caught TypeError.
Proof.
  assert (Hid : "p1" <> EmptyString) by discriminate.
  split; [exact Hid|]. split; [reflexivity|].
  exact (createPostComment_without_replyToId_throws_TypeError
           forum 0 "ann" "p1"
           {| PostCommentService.dto_content := "hello";
              PostCommentService.dto_replyToId :=
                PostCommentService.undefined |}
           _ Hid eq_refl (or_introl eq_refl)).
Defined.

(** When a transaction is sent: exactly when the post id is not empty, the
    post exists, and [replyToId] is either the empty string or the id of a
    comment that exists. *)
Theorem createPostComment_transacts_iff
    (db : PostCommentService.Database) (now : Z) (authorId postId : string)
    (dto : PostCommentService.CreatePostCommentDto) :
  (exists ops respond,
     PostCommentService.createPostComment db now authorId postId dto
     = PostCommentService.Transact ops respond)
  <-> postId <> EmptyString
      /\ (exists p, PostCommentService.post_findUnique postId db = Some p)
      /\ (PostCommentService.dto_replyToId dto
          = PostCommentService.text EmptyString
          \/ exists s parent,
               PostCommentService.dto_replyToId dto = PostCommentService.text s
               /\ s <> EmptyString
               /\ PostCommentService.postComment_findUnique s db
                  = Some parent).
Proof.
  unfold PostCommentService.createPostComment.
  destruct (String.eqb_spec postId "") as [->|Hid].
  { split.
    - intros (ops & respond & H). discriminate H.
    - intros (H & _). congruence. }
  destruct (PostCommentService.post_findUnique postId db) as [p|].
  2:{ split.
      - intros (ops & respond & H). discriminate H.
      - intros (_ & (p & H) & _). discriminate H. }
  destruct (PostCommentService.dto_replyToId dto) as [| |[|c s]] eqn:Hreply.
  - split.
    + intros (ops & respond & H). discriminate H.
    + intros (_ & _ & [H | (s & parent & H & _)]); discriminate H.
  - split.
    + intros (ops & respond & H). discriminate H.
    + intros (_ & _ & [H | (s & parent & H & _)]); discriminate H.
  - split.
    + intros _. split; [exact Hid|]. split; [exists p; reflexivity|].
      left. reflexivity.
    + intros _. eexists. eexists. reflexivity.
  - destruct (PostCommentService.postComment_findUnique (String c s) db)
      as [parent|] eqn:Hparent.
    + split.
      * intros _. split; [exact Hid|]. split; [exists p; reflexivity|].
        right. exists (String c s), parent.
        split; [reflexivity|]. split; [discriminate | exact Hparent].
      * intros _. eexists. eexists. reflexivity.
    + split.
      * intros (ops & respond & H). discriminate H.
      * intros (_ & _ & [H | (s' & parent & H & _ & Hfound)]);
          [discriminate H|].
        injection H as <-. congruence.
Qed.

(** A reply is filed one level below its parent and counted once on the
    post and once on the parent -- and the post of the parent is not
    compared with the post of the reply: whatever post the parent belongs
    to, the transaction creates the reply under the post of the call. *)
Theorem createPostComment_reply
    (db : PostCommentService.Database) (now : Z) (authorId postId : string)
    (dto : PostCommentService.CreatePostCommentDto)
    (p : PostCommentService.Post.t) (s : string)
    (parent : PostCommentService.PostComment.t) :
  postId <> EmptyString ->
  PostCommentService.post_findUnique postId db = Some p ->
  PostCommentService.dto_replyToId dto = PostCommentService.text s ->
  s <> EmptyString ->
  PostCommentService.postComment_findUnique s db = Some parent ->
  exists respond,
    PostCommentService.createPostComment db now authorId postId dto
    = PostCommentService.Transact
        [PostCommentService.post_update postId
           (PostCommentService.increment 1);
         PostCommentService.postComment_create
           {| PostCommentService.create_content :=
                PostCommentService.dto_content dto;
              PostCommentService.create_replyToId := Some s;
              PostCommentService.create_postId := postId;
              PostCommentService.create_authorId := authorId;
              PostCommentService.create_level :=
                PostCommentService.PostComment.level parent + 1 |};
         PostCommentService.postComment_update s
           (PostCommentService.increment 1)]
        respond
    /\ forall answers,
         data (respond answers) = nth_error answers 1
         /\ statusCode (respond answers) = 201.
Proof.
  intros Hid Hpost Hreply Hs Hparent.
  unfold PostCommentService.createPostComment.
  rewrite (eqb_empty_false _ Hid), Hpost, Hreply.
  destruct s as [|c s]; [congruence|]. rewrite Hparent.
  eexists. split; [reflexivity|]. intros answers. split; reflexivity.
Qed.

(** The theorem at work: a comment under the post p1 in reply to c3, a
    comment of the post p2. *)
Lemma createPostComment_reply_witness :
  "p1" <> EmptyString
  /\ PostCommentService.post_findUnique "p1" forum
     = Some {| PostCommentService.Post.id := "p1";
               PostCommentService.Post.commentCount := 5 |}
  /\ "c3" <> EmptyString
  /\ PostCommentService.postComment_findUnique "c3" forum
     = Some (a_comment "c3" "p2" "bob" None 0 0)
  /\ exists respond,
       PostCommentService.createPostComment forum 0 "ann" "p1"
         {| PostCommentService.dto_content := "hello";
            PostCommentService.dto_replyToId :=
              PostCommentService.text "c3" |}
       = PostCommentService.Transact
           [PostCommentService.post_update "p1"
              (PostCommentService.increment 1);
            PostCommentService.postComment_create
              {| PostCommentService.create_content := "hello";
                 PostCommentService.create_replyToId := Some "c3";
                 PostCommentService.create_postId := "p1";
                 PostCommentService.create_authorId := "ann";
                 PostCommentService.create_level := 0 + 1 |};
            PostCommentService.postComment_update "c3"
              (PostCommentService.increment 1)]
           respond.
Proof.
  assert (Hid : "p1" <> EmptyString) by discriminate.
  assert (Hs : "c3" <> EmptyString) by discriminate.
  split; [exact Hid|]. split; [reflexivity|]. split; [exact Hs|].
  split; [reflexivity|].
  destruct (createPostComment_reply
              forum 0 "ann" "p1"
              {| PostCommentService.dto_content := "hello";
                 PostCommentService.dto_replyToId :=
                   PostCommentService.text "c3" |}
              _ "c3" _ Hid eq_refl eq_refl Hs eq_refl) as (respond & H & _).
  exists respond. exact H.
Defined.

(** Somebody else's comment: a caller with a non-empty id that is not the
    id of the author is refused with "This comment is not yours", and no
    transaction is sent. *)
Theorem deletePostComment_refuses_other_authors
    (db : PostCommentService.Database) (now : Z) (commentId authorId : string)
    (c : PostCommentService.PostComment.t) :
  commentId <> EmptyString ->
  PostCommentService.postComment_findUnique commentId db = Some c ->
  authorId <> EmptyString ->
  authorId <> PostCommentService.PostComment.authorId c ->
  PostCommentService.deletePostComment db now commentId authorId
  = PostCommentService.Caught
      (ForbiddenException "This comment is not yours").
Proof.
  intros Hid Hfound Hne Hother.
  unfold PostCommentService.deletePostComment,
    PostCommentService.handleDeletePostComment.
  rewrite (eqb_empty_false _ Hid), Hfound.
  destruct authorId as [|a s]; [congruence|].
  cbn [PostCommentService.truthy andb].
  replace (String.eqb (PostCommentService.PostComment.authorId c)
                      (String a s)) with false
    by (symmetry; apply String.eqb_neq; congruence).
  reflexivity.
Qed.

Lemma deletePostComment_refuses_other_authors_witness :
  "c2" <> EmptyString
  /\ PostCommentService.postComment_findUnique "c2" forum
     = Some (a_comment "c2" "p1" "bob" (Some "c1") 1 0)
  /\ "ann" <> EmptyString
  /\ "ann" <> PostCommentService.PostComment.authorId
                (a_comment "c2" "p1" "bob" (Some "c1") 1 0)
  /\ PostCommentService.deletePostComment forum 0 "c2" "ann"
     = PostCommentService.Caught
         (ForbiddenException "This comment is not yours").
Proof.
  assert (H1 : "c2" <> EmptyString) by discriminate.
  assert (H2 : "ann" <> EmptyString) by discriminate.
  assert (H3 : "ann" <> PostCommentService.PostComment.authorId
                          (a_comment "c2" "p1" "bob" (Some "c1") 1 0))
    by discriminate.
  split; [exact H1|]. split; [reflexivity|]. split; [exact H2|].
  split; [exact H3|].
  exact (deletePostComment_refuses_other_authors
           forum 0 "c2" "ann" _ H1 eq_refl H2 H3).
Defined.

(** The author check is skipped for a falsy author id: for a comment that
    exists, [deletePostComment] does what [deletePostCommentByAdmin] does if
    and only if the author id is the id of the author of the comment or the
    EMPTY string. *)
Theorem deletePostComment_as_admin_iff
    (db : PostCommentService.Database) (now : Z) (commentId authorId : string)
    (c : PostCommentService.PostComment.t) :
  commentId <> EmptyString ->
  PostCommentService.postComment_findUnique commentId db = Some c ->
  PostCommentService.deletePostComment db now commentId authorId
  = PostCommentService.deletePostCommentByAdmin db now commentId
  <-> authorId = EmptyString
      \/ authorId = PostCommentService.PostComment.authorId c.
Proof.
  intros Hid Hfound.
  unfold PostCommentService.deletePostComment,
    PostCommentService.deletePostCommentByAdmin,
    PostCommentService.handleDeletePostComment.
  rewrite (eqb_empty_false _ Hid), Hfound.
  destruct authorId as [|a s].
  - cbn [PostCommentService.truthy andb]. split; [|reflexivity].
    intros _. left. reflexivity.
  - cbn [PostCommentService.truthy andb].
    destruct (String.eqb_spec (PostCommentService.PostComment.authorId c)
                              (String a s)) as [Heq|Hneq];
      cbn [negb].
    + split; [|reflexivity]. intros _. right. symmetry. exact Heq.
    + split; [discriminate|]. intros [H|H]; [discriminate H | congruence].
Qed.

Lemma deletePostComment_as_admin_iff_witness :
  "c2" <> EmptyString
  /\ PostCommentService.postComment_findUnique "c2" forum
     = Some (a_comment "c2" "p1" "bob" (Some "c1") 1 0)
  /\ PostCommentService.deletePostComment forum 0 "c2" ""
     = PostCommentService.deletePostCommentByAdmin forum 0 "c2".
Proof.
  assert (H1 : "c2" <> EmptyString) by discriminate.
  split; [exact H1|]. split; [reflexivity|].
  exact (proj2 (deletePostComment_as_admin_iff
                  forum 0 "c2" "" _ H1 eq_refl) (or_introl eq_refl)).
Defined.

(** What the response of a deletion carries: the function takes the THIRD
    answer of the transaction.  For a reply the transaction has three
    operations and the third answer is the deleted comment; for a top-level
    comment it has two, and [data] is [undefined]. *)
Theorem deletePostCommentByAdmin_response_data
    (db : PostCommentService.Database) (now : Z) (commentId : string)
    (c : PostCommentService.PostComment.t) :
  commentId <> EmptyString ->
  PostCommentService.postComment_findUnique commentId db = Some c ->
  exists ops respond,
    PostCommentService.deletePostCommentByAdmin db now commentId
    = PostCommentService.Transact ops respond
    /\ List.last ops (PostCommentService.postComment_delete commentId)
       = PostCommentService.postComment_delete commentId
    /\ match PostCommentService.PostComment.replyToId c with
       | Some (String _ _) =>
           length ops = 3%nat
           /\ forall a1 a2 a3, data (respond [a1; a2; a3]) = Some a3
       | _ =>
           length ops = 2%nat
           /\ forall a1 a2, data (respond [a1; a2]) = None
       end.
Proof.
  intros Hid Hfound.
  unfold PostCommentService.deletePostCommentByAdmin,
    PostCommentService.handleDeletePostComment.
  rewrite (eqb_empty_false _ Hid), Hfound.
  cbn [PostCommentService.truthy andb].
  destruct (PostCommentService.PostComment.replyToId c) as [[|x s]|];
    (eexists; eexists; split; [reflexivity|]; split; [reflexivity|];
     split; [reflexivity|]; intros; reflexivity).
Qed.

Lemma deletePostCommentByAdmin_response_data_witness :
  "c5" <> EmptyString
  /\ PostCommentService.postComment_findUnique "c5" forum
     = Some (a_comment "c5" "p1" "cid" None 0 0)
  /\ exists ops respond,
       PostCommentService.deletePostCommentByAdmin forum 0 "c5"
       = PostCommentService.Transact ops respond
       /\ length ops = 2%nat
       /\ forall a1 a2, data (respond [a1; a2]) = None.
Proof.
  assert (H1 : "c5" <> EmptyString) by discriminate.
  split; [exact H1|]. split; [reflexivity|].
  destruct (deletePostCommentByAdmin_response_data forum 0 "c5" _ H1 eq_refl)
    as (ops & respond & H & _ & Hlen & Hdata).
  exists ops, respond. split; [exact H|]. split; [exact Hlen | exact Hdata].
Defined.

(** ** The user service *)

Module UserFacts.
Import UserService.

Lemma find_satisfies {A} (p : A -> bool) (rows : list A) (x : A) :
  find p rows = Some x -> p x = true /\ In x rows.
Proof. intros H. apply find_some in H. tauto. Qed.

(** A row that satisfies the condition can be deleted. *)
Lemma delete_first_some {A} (p : A -> bool) (rows : list A) (x : A) :
  In x rows -> p x = true ->
  exists deleted rest,
    delete_first p rows = Some (deleted, rest)
    /\ p deleted = true
    /\ length rows = S (length rest).
Proof.
  induction rows as [|row rows IH]; intros Hin Hp; [destruct Hin|].
  cbn [delete_first]. destruct (p row) eqn:Hrow.
  - exists row, rows. repeat split. exact Hrow.
  - destruct Hin as [->|Hin]; [congruence|].
    destruct (IH Hin Hp) as (d & rest & -> & Hd & Hlen).
    exists d, (row :: rest). repeat split; [exact Hd|]. cbn. lia.
Qed.

(** The row [find] answers is the row [update_first] changes; the changed
    row takes its place for [find], and the rows another condition finds
    are found as before when the change keeps that condition. *)
Lemma update_first_found {A} (p : A -> bool) (f : A -> A) (rows : list A)
    (x : A) :
  find p rows = Some x ->
  exists rows',
    update_first p f rows = Some (f x, rows')
    /\ (p (f x) = true -> find p rows' = Some (f x))
    /\ (forall q : A -> bool,
          q x = false -> q (f x) = false -> find q rows' = find q rows).
Proof.
  induction rows as [|row rows IH]; intros Hfind; [discriminate|].
  cbn [find update_first] in *. destruct (p row) eqn:Hrow.
  - injection Hfind as ->. exists (f x :: rows). split; [reflexivity|]. split.
    + intros Hp. cbn [find]. rewrite Hp. reflexivity.
    + intros q Hq Hq'. cbn [find]. rewrite Hq, Hq'. reflexivity.
  - destruct (IH Hfind) as (rows' & -> & Hsame & Hother).
    exists (row :: rows'). split; [reflexivity|]. split.
    + intros Hp. cbn [find]. rewrite Hrow. apply Hsame. exact Hp.
    + intros q Hq Hq'. cbn [find]. rewrite (Hother q Hq Hq'). reflexivity.
Qed.

Lemma update_first_none {A} (p : A -> bool) (f : A -> A) (rows : list A) :
  find p rows = None -> update_first p f rows = None.
Proof.
  induction rows as [|row rows IH]; intros Hfind; [reflexivity|].
  cbn [find update_first] in *. destruct (p row); [discriminate|].
  rewrite (IH Hfind). reflexivity.
Qed.

Lemma has_id_eq (where_id : string) (u : User.t) :
  has_id where_id u = true -> User.id u = where_id.
Proof. unfold has_id. apply String.eqb_eq. Qed.

(** The run of a successful activation. *)
Lemma userActiveByCode_run (db : Database) (checkedAt respondedAt : Z)
    (userId verifyCode : string) (u : User.t) (k : ActiveCode.t) :
  userId <> EmptyString ->
  user_findUnique userId db = Some u ->
  User.isActive u = false ->
  activeCode_findFirst (User.id u) verifyCode db = Some k ->
  checkedAt <= ActiveCode.expiresAt k ->
  exists deleted codes users,
    delete_first (fun a => String.eqb (ActiveCode.id a) (ActiveCode.id k))
                 (activeCode db) = Some (deleted, codes)
    /\ update_first (has_id userId) (set_isActive true) (user db)
       = Some (set_isActive true u, users)
    /\ userActiveByCode db checkedAt respondedAt userId verifyCode
       = (Responded {| message := "User activated successfully";
                       data := Some (set_isActive true u);
                       statusCode := 200;
                       date := respondedAt |},
          {| user := users; activeCode := codes |}).
Proof.
  intros Hid Hu Hinactive Hk Hvalid.
  pose proof (find_satisfies _ _ _ Hu) as [Hpu _].
  pose proof (has_id_eq _ _ Hpu) as Huid.
  pose proof (find_satisfies _ _ _ Hk) as [_ Hink].
  destruct (delete_first_some
              (fun a => String.eqb (ActiveCode.id a) (ActiveCode.id k))
              (activeCode db) k Hink (String.eqb_refl _))
    as (deleted & codes & Hdel & _ & _).
  destruct (update_first_found (has_id userId) (set_isActive true)
              (user db) u Hu) as (users & Hupd & _ & _).
  exists deleted, codes, users. split; [exact Hdel|]. split; [exact Hupd|].
  unfold userActiveByCode.
  rewrite (eqb_empty_false _ Hid), Hu, Hinactive, Hk.
  unfold isPast. replace (ActiveCode.expiresAt k <? checkedAt) with false
    by (symmetry; apply Z.ltb_ge; lia).
  unfold activeCode_delete. rewrite Hdel.
  unfold user_update. cbn [user activeCode]. rewrite Huid, Hupd.
  reflexivity.
Qed.

(** What a successful activation answers and leaves. *)
Lemma userActiveByCode_success
    (db : UserService.Database) (checkedAt respondedAt : Z)
    (userId verifyCode : string) (u : UserService.User.t)
    (k : UserService.ActiveCode.t) :
  userId <> EmptyString ->
  UserService.user_findUnique userId db = Some u ->
  UserService.User.isActive u = false ->
  UserService.activeCode_findFirst (UserService.User.id u) verifyCode db
  = Some k ->
  checkedAt <= UserService.ActiveCode.expiresAt k ->
  exists r db',
    UserService.userActiveByCode db checkedAt respondedAt userId verifyCode
    = (Responded r, db')
    /\ data r = Some (UserService.set_isActive true u)
    /\ UserService.user_findUnique userId db'
       = Some (UserService.set_isActive true u)
    /\ (forall other, other <> userId ->
          UserService.user_findUnique other db'
          = UserService.user_findUnique other db)
    /\ length (UserService.activeCode db)
       = S (length (UserService.activeCode db')).
Proof.
  intros Hid Hu Hinactive Hk Hvalid.
  pose proof (find_satisfies _ _ _ Hu) as [Hpu _].
  pose proof (find_satisfies _ _ _ Hk) as [_ Hink].
  destruct (userActiveByCode_run db checkedAt respondedAt userId
              verifyCode u k Hid Hu Hinactive Hk Hvalid)
    as (deleted & codes & users & Hdel & Hupd & Hrun).
  destruct (delete_first_some
              (fun a => String.eqb (UserService.ActiveCode.id a)
                                   (UserService.ActiveCode.id k))
              (UserService.activeCode db) k Hink (String.eqb_refl _))
    as (deleted' & codes' & Hdel' & _ & Hlen).
  rewrite Hdel in Hdel'. injection Hdel' as <- <-.
  destruct (update_first_found (UserService.has_id userId)
              (UserService.set_isActive true) (UserService.user db) u Hu)
    as (users' & Hupd' & Hsame & Hother).
  rewrite Hupd in Hupd'. injection Hupd' as <-.
  eexists. eexists. split; [exact Hrun|].
  cbn [data UserService.user UserService.activeCode].
  split; [reflexivity|]. split; [|split; [|exact Hlen]].
  - unfold UserService.user_findUnique. cbn [UserService.user].
    apply Hsame. exact Hpu.
  - intros other Hne. unfold UserService.user_findUnique.
    cbn [UserService.user]. apply Hother.
    + unfold UserService.has_id. apply String.eqb_neq.
      rewrite (has_id_eq _ _ Hpu). congruence.
    + unfold UserService.has_id.
      cbn [UserService.set_isActive UserService.User.id].
      apply String.eqb_neq. rewrite (has_id_eq _ _ Hpu). congruence.
Qed.

End UserFacts.

(** An activation that succeeds: for an inactive user and an unexpired code
    of that user the call answers the user as activated; afterwards the user
    is active, every other user is found as before, and one activation code
    is gone. *)
Theorem userActiveByCode_activates
    (db : UserService.Database) (checkedAt respondedAt : Z)
    (userId verifyCode : string) (u : UserService.User.t)
    (k : UserService.ActiveCode.t) :
  userId <> EmptyString ->
  UserService.user_findUnique userId db = Some u ->
  UserService.User.isActive u = false ->
  UserService.activeCode_findFirst (UserService.User.id u) verifyCode db
  = Some k ->
  checkedAt <= UserService.ActiveCode.expiresAt k ->
  exists r db',
    UserService.userActiveByCode db checkedAt respondedAt userId verifyCode
    = (Responded r, db')
    /\ data r = Some (UserService.set_isActive true u)
    /\ UserService.user_findUnique userId db'
       = Some (UserService.set_isActive true u)
    /\ (forall other, other <> userId ->
          UserService.user_findUnique other db'
          = UserService.user_findUnique other db)
    /\ length (UserService.activeCode db)
       = S (length (UserService.activeCode db')).
Proof.
  apply UserFacts.userActiveByCode_success.
Qed.

Lemma userActiveByCode_activates_witness :
  "bob" <> EmptyString
  /\ UserService.user_findUnique "bob" members = Some (a_user "bob" false 0)
  /\ UserService.User.isActive (a_user "bob" false 0) = false
  /\ UserService.activeCode_findFirst
       (UserService.User.id (a_user "bob" false 0)) "222222" members
     = Some (a_code "k2" "bob" "222222" 5000)
  /\ 5000 <= UserService.ActiveCode.expiresAt
               (a_code "k2" "bob" "222222" 5000)
  /\ exists r db',
       UserService.userActiveByCode members 5000 5001 "bob" "222222"
       = (Responded r, db')
       /\ data r = Some (UserService.set_isActive true (a_user "bob" false 0)).
Proof.
  assert (Hid : "bob" <> EmptyString) by discriminate.
  assert (Hle : 5000 <= UserService.ActiveCode.expiresAt
                          (a_code "k2" "bob" "222222" 5000))
    by (cbn; lia).
  split; [exact Hid|]. split; [reflexivity|]. split; [reflexivity|].
  split; [reflexivity|]. split; [exact Hle|].
  destruct (userActiveByCode_activates members 5000 5001 "bob" "222222"
              _ _ Hid eq_refl eq_refl eq_refl Hle)
    as (r & db' & Hrun & Hdata & _).
  exists r, db'. split; [exact Hrun | exact Hdata].
Defined.

(** A code activates once: after an activation that succeeded, the same
    call again is refused with "User is already active" and changes
    nothing. *)
Theorem userActiveByCode_only_once
    (db db' : UserService.Database) (checkedAt respondedAt : Z)
    (userId verifyCode : string)
    (r : Response (option UserService.User.t)) :
  UserService.userActiveByCode db checkedAt respondedAt userId verifyCode
  = (Responded r, db') ->
  forall checkedAt' respondedAt' verifyCode',
    UserService.userActiveByCode db' checkedAt' respondedAt' userId
                                 verifyCode'
    = (Handled (ForbiddenException "User is already active"),
       db').
Proof.
  intros Hrun checkedAt' respondedAt' verifyCode'.
  pose proof Hrun as Hcase. unfold UserService.userActiveByCode in Hcase.
  destruct (String.eqb_spec userId "") as [->|Hid]; [discriminate Hcase|].
  destruct (UserService.user_findUnique userId db) as [u|] eqn:Hu;
    [|discriminate Hcase].
  destruct (UserService.User.isActive u) eqn:Hinactive; [discriminate Hcase|].
  destruct (UserService.activeCode_findFirst (UserService.User.id u)
              verifyCode db) as [k|] eqn:Hk; [|discriminate Hcase].
  destruct (UserService.isPast (UserService.ActiveCode.expiresAt k) checkedAt)
    eqn:Hexp; [discriminate Hcase|].
  assert (Hvalid : checkedAt <= UserService.ActiveCode.expiresAt k)
    by (unfold UserService.isPast in Hexp; apply Z.ltb_ge in Hexp; lia).
  clear Hcase.
  destruct (UserFacts.userActiveByCode_success db checkedAt
              respondedAt userId
              verifyCode u k Hid Hu Hinactive Hk Hvalid)
    as (r0 & db0 & Hrun0 & _ & Hfound & _).
  rewrite Hrun0 in Hrun. injection Hrun as _ <-.
  unfold UserService.userActiveByCode.
  rewrite (eqb_empty_false _ Hid), Hfound. reflexivity.
Qed.

Lemma userActiveByCode_only_once_witness :
  exists r db',
    UserService.userActiveByCode members 4000 4001 "bob" "222222"
    = (Responded r, db')
    /\ UserService.userActiveByCode db' 4002 4003 "bob" "111111"
       = (Handled (ForbiddenException "User is already active"),
          db').
Proof.
  eexists. eexists. split; [reflexivity|].
  exact (userActiveByCode_only_once members _ 4000 4001 "bob" "222222" _
           eq_refl 4002 4003 "111111").
Defined.

(** An activation that fails changes nothing: whenever the call ends in the
    [catch] block, the database is the database before the call.  (The two
    writes cannot fail once the checks have passed.) *)
Theorem userActiveByCode_failure_changes_nothing
    (db : UserService.Database) (checkedAt respondedAt : Z)
    (userId verifyCode : string) (e : ServiceError) :
  fst (UserService.userActiveByCode db checkedAt respondedAt userId
                                    verifyCode)
  = Handled e ->
  snd (UserService.userActiveByCode db checkedAt respondedAt userId
                                    verifyCode) = db.
Proof.
  destruct (String.eqb_spec userId "") as [Hempty|Hid].
  { subst userId. intros _. reflexivity. }
  destruct (UserService.user_findUnique userId db) as [u|] eqn:Hu.
  2:{ unfold UserService.userActiveByCode.
      rewrite (eqb_empty_false _ Hid), Hu. intros _. reflexivity. }
  destruct (UserService.User.isActive u) eqn:Hinactive.
  { unfold UserService.userActiveByCode.
    rewrite (eqb_empty_false _ Hid), Hu, Hinactive.
    intros _. reflexivity. }
  destruct (UserService.activeCode_findFirst (UserService.User.id u)
              verifyCode db) as [k|] eqn:Hk.
  2:{ unfold UserService.userActiveByCode.
      rewrite (eqb_empty_false _ Hid), Hu, Hinactive, Hk.
      intros _. reflexivity. }
  destruct (UserService.isPast (UserService.ActiveCode.expiresAt k) checkedAt)
    eqn:Hexp.
  { unfold UserService.userActiveByCode.
    rewrite (eqb_empty_false _ Hid), Hu, Hinactive, Hk, Hexp.
    intros _. reflexivity. }
  assert (Hvalid : checkedAt <= UserService.ActiveCode.expiresAt k)
    by (unfold UserService.isPast in Hexp; apply Z.ltb_ge in Hexp; lia).
  destruct (UserFacts.userActiveByCode_run db checkedAt respondedAt userId
              verifyCode u k Hid Hu Hinactive Hk Hvalid)
    as (deleted & codes & users & _ & _ & Hrun).
  rewrite Hrun. discriminate.
Qed.

Lemma userActiveByCode_failure_changes_nothing_witness :
  fst (UserService.userActiveByCode members 1001 1002 "bob" "111111")
  = Handled (ForbiddenException "Verification code expired")
  /\ snd (UserService.userActiveByCode members 1001 1002 "bob" "111111")
     = members.
Proof.
  split; [reflexivity|].
  exact (userActiveByCode_failure_changes_nothing
           members 1001 1002 "bob" "111111" _ eq_refl).
Defined.

(** When an activation succeeds: exactly when the id is not empty, the user
    exists and is not active, the user has a code equal to the one given,
    and the FIRST such code is not expired -- a code is still good at the
    very instant it expires. *)
Theorem userActiveByCode_succeeds_iff
    (db : UserService.Database) (checkedAt respondedAt : Z)
    (userId verifyCode : string) :
  (exists r,
     fst (UserService.userActiveByCode db checkedAt respondedAt userId
                                       verifyCode)
     = Responded r)
  <-> userId <> EmptyString
      /\ exists u k,
           UserService.user_findUnique userId db = Some u
           /\ UserService.User.isActive u = false
           /\ UserService.activeCode_findFirst (UserService.User.id u)
                verifyCode db = Some k
           /\ checkedAt <= UserService.ActiveCode.expiresAt k.
Proof.
  split.
  - intros [r Hrun]. unfold UserService.userActiveByCode in Hrun.
    destruct (String.eqb_spec userId "") as [->|Hid]; [discriminate Hrun|].
    destruct (UserService.user_findUnique userId db) as [u|] eqn:Hu;
      [|discriminate Hrun].
    destruct (UserService.User.isActive u) eqn:Hinactive;
      [discriminate Hrun|].
    destruct (UserService.activeCode_findFirst (UserService.User.id u)
                verifyCode db) as [k|] eqn:Hk; [|discriminate Hrun].
    destruct (UserService.isPast (UserService.ActiveCode.expiresAt k)
                checkedAt) eqn:Hexp; [discriminate Hrun|].
    split; [exact Hid|]. exists u, k. repeat split; try assumption.
    unfold UserService.isPast in Hexp. apply Z.ltb_ge in Hexp. lia.
  - intros (Hid & u & k & Hu & Hinactive & Hk & Hvalid).
    destruct (UserFacts.userActiveByCode_run db checkedAt respondedAt userId
                verifyCode u k Hid Hu Hinactive Hk Hvalid)
      as (deleted & codes & users & _ & _ & Hrun).
    rewrite Hrun. eexists. reflexivity.
Qed.

(** An id that no user has: [banUser], [updateUserCredits] and
    [addUserCredits] do not look the user up; the update throws, and each
    call ends in the [catch] block with the record-not-found error of the
    client -- never with the "User not found" of the source -- the database
    unchanged. *)
Theorem updates_of_unknown_user
    (db : UserService.Database) (now : Z) (userId : string) (credits : Z)
    (isBanned : bool) :
  userId <> EmptyString ->
  UserService.user_findUnique userId db = None ->
  UserService.banUser db now userId isBanned
  = (Handled (PrismaRecordNotFound "User"), db)
  /\ UserService.updateUserCredits db now userId credits
     = (Handled (PrismaRecordNotFound "User"), db)
  /\ UserService.addUserCredits db now userId credits
     = (Handled (PrismaRecordNotFound "User"), db).
Proof.
  intros Hid Hnone.
  unfold UserService.banUser, UserService.updateUserCredits,
    UserService.addUserCredits, UserService.user_update.
  unfold UserService.user_findUnique in Hnone.
  rewrite (eqb_empty_false _ Hid).
  rewrite !(UserFacts.update_first_none _ _ _ Hnone).
  repeat split; reflexivity.
Qed.

Lemma updates_of_unknown_user_witness :
  "zoe" <> EmptyString
  /\ UserService.user_findUnique "zoe" members = None
  /\ UserService.addUserCredits members 0 "zoe" 5
     = (Handled (PrismaRecordNotFound "User"), members).
Proof.
  assert (Hid : "zoe" <> EmptyString) by discriminate.
  split; [exact Hid|]. split; [reflexivity|].
  exact (proj2 (proj2 (updates_of_unknown_user
                         members 0 "zoe" 5 true Hid eq_refl))).
Defined.

(** What [banUser] answers and leaves for a user that exists. *)
Lemma banUser_found (db : UserService.Database) (now : Z) (userId : string)
    (isBanned : bool) (u : UserService.User.t) :
  userId <> EmptyString ->
  UserService.user_findUnique userId db = Some u ->
  exists db',
    UserService.banUser db now userId isBanned
    = (Responded {| message := (if isBanned then "Ban" else "Unban")
                               +:+ " user successfully";
                    data := tt;
                    statusCode := 200;
                    date := now |},
       db')
    /\ UserService.user_findUnique userId db'
       = Some (UserService.set_isBanned isBanned u)
    /\ (forall other, other <> userId ->
          UserService.user_findUnique other db'
          = UserService.user_findUnique other db)
    /\ UserService.activeCode db' = UserService.activeCode db.
Proof.
  intros Hid Hu.
  pose proof (UserFacts.find_satisfies _ _ _ Hu) as [Hpu _].
  destruct (UserFacts.update_first_found (UserService.has_id userId)
              (UserService.set_isBanned isBanned) (UserService.user db) u Hu)
    as (users & Hupd & Hsame & Hother).
  exists {| UserService.user := users;
            UserService.activeCode := UserService.activeCode db |}.
  split; [|split; [|split]].
  - unfold UserService.banUser, UserService.user_update.
    rewrite (eqb_empty_false _ Hid), Hupd. reflexivity.
  - unfold UserService.user_findUnique. cbn [UserService.user].
    apply Hsame. exact Hpu.
  - intros other Hne. unfold UserService.user_findUnique.
    cbn [UserService.user]. apply Hother.
    + unfold UserService.has_id. apply String.eqb_neq.
      rewrite (UserFacts.has_id_eq _ _ Hpu). congruence.
    + unfold UserService.has_id.
      cbn [UserService.set_isBanned UserService.User.id].
      apply String.eqb_neq. rewrite (UserFacts.has_id_eq _ _ Hpu). congruence.
  - reflexivity.
Qed.

(** Banning a user who is not banned and lifting the ban: both calls
    succeed; afterwards the user is found with the ban lifted and with the
    id, the name, the activation and the credits it had, every other user is
    found as before, and the activation codes are untouched.  (Found: by id;
    the place of a row in its table and the columns the model leaves out,
    [updatedAt] among them, are not spoken of.) *)
Theorem banUser_then_unban_lifts_the_ban
    (db : UserService.Database) (now now' : Z) (userId : string)
    (u : UserService.User.t) :
  userId <> EmptyString ->
  UserService.user_findUnique userId db = Some u ->
  UserService.User.isBanned u = false ->
  exists db1 db2,
    UserService.banUser db now userId true
    = (Responded {| message := "Ban user successfully"; data := tt;
                    statusCode := 200; date := now |}, db1)
    /\ UserService.user_findUnique userId db1
       = Some (UserService.set_isBanned true u)
    /\ UserService.banUser db1 now' userId false
       = (Responded {| message := "Unban user successfully"; data := tt;
                       statusCode := 200; date := now' |}, db2)
    /\ UserService.user_findUnique userId db2 = Some u
    /\ (forall other, other <> userId ->
          UserService.user_findUnique other db2
          = UserService.user_findUnique other db)
    /\ UserService.activeCode db2 = UserService.activeCode db.
Proof.
  intros Hid Hu Hfree.
  destruct (banUser_found db now userId true u Hid Hu)
    as (db1 & Hban & Hu1 & Hother1 & Hcodes1).
  destruct (banUser_found db1 now' userId false _ Hid Hu1)
    as (db2 & Hunban & Hu2 & Hother2 & Hcodes2).
  exists db1, db2.
  split; [exact Hban|]. split; [exact Hu1|]. split; [exact Hunban|].
  split; [|split].
  - rewrite Hu2. f_equal. destruct u as [i n a b c]. cbn in Hfree. subst b.
    reflexivity.
  - intros other Hne. rewrite (Hother2 other Hne). apply Hother1. exact Hne.
  - rewrite Hcodes2. exact Hcodes1.
Qed.

Lemma banUser_then_unban_lifts_the_ban_witness :
  "ann" <> EmptyString
  /\ UserService.user_findUnique "ann" members = Some (a_user "ann" true 10)
  /\ UserService.User.isBanned (a_user "ann" true 10) = false
  /\ exists db1 db2,
       UserService.banUser members 0 "ann" true
       = (Responded {| message := "Ban user successfully"; data := tt;
                       statusCode := 200; date := 0 |}, db1)
       /\ UserService.banUser db1 1 "ann" false
          = (Responded {| message := "Unban user successfully"; data := tt;
                          statusCode := 200; date := 1 |}, db2)
       /\ UserService.user_findUnique "ann" db2
          = Some (a_user "ann" true 10).
Proof.
  assert (Hid : "ann" <> EmptyString) by discriminate.
  split; [exact Hid|]. split; [reflexivity|]. split; [reflexivity|].
  destruct (banUser_then_unban_lifts_the_ban members 0 1 "ann" _
              Hid eq_refl eq_refl)
    as (db1 & db2 & Hban & _ & Hunban & Hu & _).
  exists db1, db2. split; [exact Hban|]. split; [exact Hunban | exact Hu].
Defined.
